(** * BoundedNumber: a numeric type clamped between two compile-time bounds

    A shallow embedding of [main.cpp]: the concepts [CanContainBounds] and
    [SameNumericType], the class template [BoundedNumber<T, Min, Max>] with
    its constructor, [set] and [value], the aliases [dB] and [dBn] and the
    literal operator [_dbn].

    C++ evaluates the concepts and [set] with the built-in comparison
    operators and [static_cast], so the embedding carries the part of the
    language they rest on: the arithmetic types, [std::numeric_limits], the
    integral promotions, the usual arithmetic conversions and the
    conversions between arithmetic types.  Widths are those of the LP64
    data model with IEC 559 [float] and [double] and the x87 extended
    [long double]; floating-point values are the [spec_float] of the
    standard library, rounded to nearest even. *)

From Stdlib Require Import ZArith Bool Lia.
From Stdlib Require Import Floats.SpecFloat.

Local Open Scope Z_scope.

(** ** Outcomes

    A use of the templates either does not compile, or runs into undefined
    behaviour, or yields a result. *)

Inductive outcome (A : Type) : Type :=
| Ok (a : A)
| Undefined
| IllFormed.

Arguments Ok {A} a.
Arguments Undefined {A}.
Arguments IllFormed {A}.

Definition bind {A B : Type} (o : outcome A) (k : A -> outcome B) : outcome B :=
  match o with
  | Ok a => k a
  | Undefined => Undefined
  | IllFormed => IllFormed
  end.

Notation "x <- o ;; k" := (bind o (fun x => k))
  (at level 61, o at next level, right associativity).

(** ** Arithmetic types *)

Module CType.

Inductive itype : Type :=
| Bool | Char | SChar | UChar | Char8 | Char16 | Char32 | WChar
| Short | UShort | Int | UInt | Long | ULong | LLong | ULLong.

Inductive ftype : Type := Float | Double | LDouble.

(** [Other] stands for every type that is not arithmetic (a pointer, a
    class, an enumeration). *)
Inductive ctype : Type :=
| TInt (i : itype)
| TFloat (f : ftype)
| Other.

Definition itype_eqb (a b : itype) : bool :=
  match a, b with
  | Bool, Bool | Char, Char | SChar, SChar | UChar, UChar
  | Char8, Char8 | Char16, Char16 | Char32, Char32 | WChar, WChar
  | Short, Short | UShort, UShort | Int, Int | UInt, UInt
  | Long, Long | ULong, ULong | LLong, LLong | ULLong, ULLong => true
  | _, _ => false
  end.

Definition ftype_eqb (a b : ftype) : bool :=
  match a, b with
  | Float, Float | Double, Double | LDouble, LDouble => true
  | _, _ => false
  end.

(** [std::is_signed] on the integral types; [char] and [wchar_t] are signed
    here. *)
Definition is_signed (i : itype) : bool :=
  match i with
  | Char | SChar | WChar | Short | Int | Long | LLong => true
  | Bool | UChar | Char8 | Char16 | Char32
  | UShort | UInt | ULong | ULLong => false
  end.

(** Number of bits of the object representation that carry the value. *)
Definition bits (i : itype) : Z :=
  match i with
  | Bool => 1
  | Char | SChar | UChar | Char8 => 8
  | Char16 | Short | UShort => 16
  | Char32 | WChar | Int | UInt => 32
  | Long | ULong | LLong | ULLong => 64
  end.

(** [std::numeric_limits<T>::lowest()] and [max()] on the integral types. *)
Definition imin (i : itype) : Z :=
  if is_signed i then - 2 ^ (bits i - 1) else 0.

Definition imax (i : itype) : Z :=
  if is_signed i then 2 ^ (bits i - 1) - 1 else 2 ^ bits i - 1.

Definition in_range (i : itype) (n : Z) : Prop := imin i <= n <= imax i.

Definition in_rangeb (i : itype) (n : Z) : bool :=
  (imin i <=? n) && (n <=? imax i).

(** Precision and exponent bound of the floating-point formats. *)
Definition prec (f : ftype) : Z :=
  match f with Float => 24 | Double => 53 | LDouble => 64 end.

Definition emax (f : ftype) : Z :=
  match f with Float => 128 | Double => 1024 | LDouble => 16384 end.

(** [std::is_arithmetic_v], [std::integral] and [std::floating_point]. *)
Definition is_arithmetic (T : ctype) : bool :=
  match T with TInt _ | TFloat _ => true | Other => false end.

Definition integral (T : ctype) : bool :=
  match T with TInt _ => true | _ => false end.

Definition floating_point (T : ctype) : bool :=
  match T with TFloat _ => true | _ => false end.

End CType.
Export CType.

(** ** Values of arithmetic types *)

Inductive num : Type :=
| VInt (i : itype) (n : Z)
| VFloat (f : ftype) (x : spec_float).

Definition type_of (v : num) : ctype :=
  match v with
  | VInt i _ => TInt i
  | VFloat f _ => TFloat f
  end.

(** A value is well formed when it is one its type can hold. *)
Definition wf_value (v : num) : Prop :=
  match v with
  | VInt i n => in_range i n
  | VFloat f x => valid_binary (prec f) (emax f) x = true
  end.

(** ** Conversions between arithmetic types *)

Module Conv.

(** Integral conversion: the result is the value of the destination type
    congruent to the source modulo two to the width; to [bool], zero gives
    [false] and everything else [true]. *)
Definition wrap (i : itype) (n : Z) : Z :=
  match i with
  | Bool => if n =? 0 then 0 else 1
  | _ => (n - imin i) mod 2 ^ bits i + imin i
  end.

(** Integer to floating point: the nearest representable value. *)
Definition int_to_float (f : ftype) (n : Z) : spec_float :=
  binary_normalize (prec f) (emax f) n 0 false.

(** Floating point to floating point of another format: the nearest
    representable value, an infinity past the largest finite one. *)
Definition float_to_float (f : ftype) (x : spec_float) : spec_float :=
  match x with
  | S754_finite s m e => binary_round (prec f) (emax f) s m e
  | _ => x
  end.

(** Floating point to integer: the fractional part is discarded; the
    behaviour is undefined when the truncated value does not fit.  To
    [bool], zero gives [false] and everything else [true]. *)
Definition truncate (x : spec_float) : option Z :=
  match x with
  | S754_zero _ => Some 0
  | S754_finite s m e =>
      let a := Z.shiftl (Zpos m) e in Some (if s then - a else a)
  | S754_infinity _ | S754_nan => None
  end.

Definition float_to_int (i : itype) (x : spec_float) : outcome Z :=
  match i with
  | Bool => Ok (match x with S754_zero _ => 0 | _ => 1 end)
  | _ =>
      match truncate x with
      | Some n => if in_rangeb i n then Ok n else Undefined
      | None => Undefined
      end
  end.

(** [static_cast<T>(v)].  A cast to the type the value already has converts
    nothing. *)
Definition static_cast (T : ctype) (v : num) : outcome num :=
  match T, v with
  | TInt i, VInt j n =>
      Ok (if itype_eqb i j then v else VInt i (wrap i n))
  | TInt i, VFloat _ x => n <- float_to_int i x ;; Ok (VInt i n)
  | TFloat f, VInt _ n => Ok (VFloat f (int_to_float f n))
  | TFloat f, VFloat g x =>
      Ok (if ftype_eqb f g then v else VFloat f (float_to_float f x))
  | Other, _ => IllFormed
  end.

End Conv.
Export Conv.

(** ** The built-in relational operators

    Both operands first undergo the usual arithmetic conversions: if one is
    floating-point the other is converted to the larger floating-point
    type; otherwise both are promoted, and brought to a common integer
    type by rank and signedness. *)

Module Relational.

Definition promote (i : itype) : itype :=
  match i with
  | Bool | Char | SChar | UChar | Char8 | Char16 | WChar
  | Short | UShort | Int => Int
  | Char32 | UInt => UInt
  | Long => Long
  | ULong => ULong
  | LLong => LLong
  | ULLong => ULLong
  end.

Definition rank (i : itype) : Z :=
  match i with
  | Bool => 0
  | Char | SChar | UChar | Char8 => 1
  | Char16 | Short | UShort => 2
  | Char32 | WChar | Int | UInt => 3
  | Long | ULong => 4
  | LLong | ULLong => 5
  end.

Definition to_unsigned (i : itype) : itype :=
  match i with
  | Int => UInt
  | Long => ULong
  | LLong => ULLong
  | _ => i
  end.

Definition common_int (a b : itype) : itype :=
  let a' := promote a in
  let b' := promote b in
  if itype_eqb a' b' then a'
  else if Bool.eqb (is_signed a') (is_signed b') then
    (if rank a' <=? rank b' then b' else a')
  else
    let u := if is_signed a' then b' else a' in
    let s := if is_signed a' then a' else b' in
    if rank s <=? rank u then u
    else if imax u <=? imax s then s
    else to_unsigned s.

Definition frank (f : ftype) : Z :=
  match f with Float => 0 | Double => 1 | LDouble => 2 end.

Definition common_float (f g : ftype) : ftype :=
  if frank f <=? frank g then g else f.

(** An operand of the common floating-point type is left as it is. *)
Definition to_common_float (c f : ftype) (x : spec_float) : spec_float :=
  if ftype_eqb c f then x else float_to_float c x.

(** The three-way outcome of comparing two arithmetic values; [None] when
    they are unordered (one is a NaN). *)
Definition compare (a b : num) : option comparison :=
  match a, b with
  | VInt i n, VInt j m =>
      let c := common_int i j in Some (Z.compare (wrap c n) (wrap c m))
  | VInt _ n, VFloat g y => SFcompare (int_to_float g n) y
  | VFloat f x, VInt _ m => SFcompare x (int_to_float f m)
  | VFloat f x, VFloat g y =>
      let c := common_float f g in
      SFcompare (to_common_float c f x) (to_common_float c g y)
  end.

(** [a < b], [a <= b] and [a >= b]. *)
Definition lt (a b : num) : bool :=
  match compare a b with Some Lt => true | _ => false end.

Definition le (a b : num) : bool :=
  match compare a b with Some (Lt | Eq) => true | _ => false end.

Definition ge (a b : num) : bool :=
  match compare a b with Some (Gt | Eq) => true | _ => false end.

End Relational.
Export Relational.

(** ** [std::numeric_limits] *)

Definition numeric_limits_max (T : ctype) : option num :=
  match T with
  | TInt i => Some (VInt i (imax i))
  | TFloat f => Some (VFloat f (SFmax_float (prec f) (emax f)))
  | Other => None
  end.

Definition numeric_limits_lowest (T : ctype) : option num :=
  match T with
  | TInt i => Some (VInt i (imin i))
  | TFloat f => Some (VFloat f (SFopp (SFmax_float (prec f) (emax f))))
  | Other => None
  end.

(** ** The concepts *)

(** [CanContainBounds<T, Min, Max>]: the conjunction is evaluated from the
    left, so the limits are only asked of an arithmetic type. *)
Definition CanContainBounds (T : ctype) (Min Max : num) : bool :=
  is_arithmetic T &&
  match numeric_limits_max T, numeric_limits_lowest T with
  | Some hi, Some lo => ge hi Max && le lo Min && le Min Max
  | _, _ => false
  end.

(** [SameNumericType<T, U>]. *)
Definition SameNumericType (T U : ctype) : bool :=
  (integral T && integral U) || (floating_point T && floating_point U).

(** ** [std::clamp]

    [std::clamp(v, lo, hi)] requires that [hi] is not less than [lo]; it
    returns [lo] if [v] is less than [lo], [hi] if [hi] is less than [v],
    and [v] otherwise.  The three values have one type and are compared
    with [<]. *)
Definition clamp (v lo hi : num) : outcome num :=
  if lt hi lo then Undefined
  else Ok (if lt v lo then lo else if lt hi v then hi else v).

(** ** The class template *)

Record BoundedNumber : Type := { m_value : option num }.

(** An object whose member has not been given a value yet. *)
Definition uninitialized : BoundedNumber := {| m_value := None |}.

Section BoundedNumber.

Variable T : ctype.
Variables Min Max : num.

(** The constraint on [set]. *)
Definition set_accepts (U : ctype) : bool :=
  SameNumericType T U || (floating_point T && integral U).

(** The value [set] gives to [m_value]. *)
Definition set_value (v : num) : outcome num :=
  let U := type_of v in
  if CanContainBounds U Min Max then
    lo <- static_cast U Min ;;
    hi <- static_cast U Max ;;
    c <- clamp v lo hi ;;
    static_cast T c
  else
    x <- static_cast T v ;;
    lo <- static_cast T Min ;;
    hi <- static_cast T Max ;;
    clamp x lo hi.

(** [set(v)], on an object of a class the template can be instantiated
    to: the call must satisfy the constraint; the member is overwritten. *)
Definition set (self : BoundedNumber) (v : num) : outcome BoundedNumber :=
  if negb (CanContainBounds T Min Max) then IllFormed
  else if negb (set_accepts (type_of v)) then IllFormed
  else s <- set_value v ;; Ok {| m_value := Some s |}.

(** The constructor runs [set] on the new object. *)
Definition construct (v : num) : outcome BoundedNumber :=
  set uninitialized v.

(** The class invariant: [Min <= m_value <= Max], the bounds taken as
    values of the storage type. *)
Definition in_bounds (s : num) : bool :=
  match static_cast T Min, static_cast T Max with
  | Ok lo, Ok hi => le lo s && le s hi
  | _, _ => false
  end.

End BoundedNumber.

(** [value()] *)
Definition value (b : BoundedNumber) : option num := m_value b.

(** ** The aliases and the literal operator *)

Definition int_ (n : Z) : num := VInt Int n.

(** The [double] nearest to [m * 2^e]. *)
Definition double_ (m e : Z) : num :=
  VFloat Double (binary_normalize 53 1024 m e false).

(** An object holding [v], as the result of a call. *)
Definition stored (v : num) : outcome BoundedNumber :=
  Ok {| m_value := Some v |}.

Definition dB_set := set (TFloat Double) (int_ (-100)) (int_ 0).
Definition dB := construct (TFloat Double) (int_ (-100)) (int_ 0).
Definition dBn_set := set (TInt Int) (int_ 0) (int_ 1000).
Definition dBn := construct (TInt Int) (int_ 0) (int_ 1000).

(** [operator""_dbn]: the literal operator takes an [unsigned long long]
    and is [consteval], so undefined behaviour in its evaluation makes the
    program ill-formed. *)
Definition consteval {A : Type} (o : outcome A) : outcome A :=
  match o with
  | Undefined => IllFormed
  | _ => o
  end.

Definition operator_dbn (value : Z) : outcome BoundedNumber :=
  consteval (dBn (VInt ULLong value)).

(** A literal with the suffix [_dbn].  An integer literal is passed to the
    operator as an [unsigned long long], which it has to fit; for a
    floating-point literal the operator would have to take a
    [long double], and there is no such overload. *)
Inductive literal : Type :=
| IntegerLiteral (n : N)
| FloatingLiteral (x : spec_float).

Definition user_defined_literal (l : literal) : outcome BoundedNumber :=
  match l with
  | IntegerLiteral n =>
      if Z.of_N n <=? imax ULLong then operator_dbn (Z.of_N n) else IllFormed
  | FloatingLiteral _ => IllFormed
  end.

(** ** Keys for the order of floating-point values

    [SFcompare] orders the values that are not NaN by sign, exponent and
    mantissa; [sf_key] makes that order the lexicographic one on triples
    of integers. *)

Definition sf_key (x : spec_float) : option (Z * Z * Z) :=
  match x with
  | S754_nan => None
  | S754_infinity true => Some (-2, 0, 0)
  | S754_infinity false => Some (2, 0, 0)
  | S754_zero _ => Some (0, 0, 0)
  | S754_finite true m e => Some (-1, - e, - Zpos m)
  | S754_finite false m e => Some (1, e, Zpos m)
  end.

Definition lex3 (a b : Z * Z * Z) : comparison :=
  let '(a1, a2, a3) := a in
  let '(b1, b2, b3) := b in
  match a1 ?= b1 with
  | Eq => match a2 ?= b2 with Eq => a3 ?= b3 | c => c end
  | c => c
  end.

(** The key of a value among the values of its own type: an integer is
    compared after promotion. *)
Definition vkey (v : num) : option (Z * Z * Z) :=
  match v with
  | VInt i n => Some (0, 0, wrap (promote i) n)
  | VFloat _ x => sf_key x
  end.

(** ** The assignment algorithm as the specification words it

    If the input type can hold the bounds, the input is clamped between
    the bounds expressed in the input type and the result is converted to
    the storage type; otherwise the input is converted to the storage type
    and clamped between the bounds expressed in the storage type. *)

Module Spec.




End Spec.

(** The type in which [set] clamps an input. *)
Definition clamp_domain (T : ctype) (Min Max v : num) : ctype :=
  if CanContainBounds (type_of v) Min Max then type_of v else T.

(** ** Sizes, and the number a value stands for *)

(** [sizeof], in bits. *)
Definition size_of (T : ctype) : Z :=
  match T with
  | TInt (Bool | Char | SChar | UChar | Char8) => 8
  | TInt (Char16 | Short | UShort) => 16
  | TInt (Char32 | WChar | Int | UInt) => 32
  | TInt (Long | ULong | LLong | ULLong) => 64
  | TFloat Float => 32
  | TFloat Double => 64
  | TFloat LDouble => 128
  | Other => 0
  end.

Definition wider (U T : ctype) : bool := size_of T <? size_of U.

(** A finite value as a mantissa and a binary exponent. *)
Definition dyadic (v : num) : option (Z * Z) :=
  match v with
  | VInt _ n => Some (n, 0)
  | VFloat _ (S754_zero _) => Some (0, 0)
  | VFloat _ (S754_finite s m e) => Some (if s then Zneg m else Zpos m, e)
  | VFloat _ (S754_infinity _) | VFloat _ S754_nan => None
  end.

(** Two values, of whatever types, that stand for the same number. *)
Definition same_number (a b : num) : bool :=
  match dyadic a, dyadic b with
  | Some (m1, e1), Some (m2, e2) =>
      let e := Z.min e1 e2 in
      Z.shiftl m1 (e1 - e) =? Z.shiftl m2 (e2 - e)
  | _, _ => false
  end.

(** An integer of the range of its type; nothing is asked of a
    floating-point value. *)
Definition wf_int (v : num) : Prop :=
  match v with
  | VInt i n => in_range i n
  | VFloat _ _ => True
  end.

(** ** [main]

    Every variable of [main] is [constexpr], so its initializer is
    evaluated at compile time, and every check is a [static_assert] on
    [value()] with the built-in [==]. *)

Definition equal (a b : num) : bool :=
  match compare a b with Some Eq => true | _ => false end.

Definition value_is (b : BoundedNumber) (expected : num) : bool :=
  match value b with
  | Some s => equal s expected
  | None => false
  end.

Definition static_assert {A : Type} (c : bool) (rest : outcome A) : outcome A :=
  if c then rest else IllFormed.

Definition main : outcome Z :=
  dbnInRange <- consteval (dBn (int_ 10)) ;;
  static_assert (value_is dbnInRange (int_ 10)) (
  dbnClampUpper <- consteval (dBn (VInt ULLong (imax ULLong))) ;;
  static_assert (value_is dbnClampUpper (int_ 1000)) (
  dbnClampLower <- consteval (dBn (VInt LLong (imin LLong))) ;;
  static_assert (value_is dbnClampLower (int_ 0)) (
  dbnLiteral <- user_defined_literal (IntegerLiteral 10) ;;
  static_assert (value_is dbnLiteral (int_ 10)) (
  dbInRange <- consteval (dB (double_ (-21) (-1))) ;;
  static_assert (value_is dbInRange (double_ (-21) (-1))) (
  dbFromInteger <- consteval (dB (int_ (-10))) ;;
  static_assert (value_is dbFromInteger (int_ (-10))) (
  dbClampUpper <- consteval (dB (VFloat LDouble (SFmax_float 64 16384))) ;;
  static_assert (value_is dbClampUpper (int_ 0)) (
  dbClampLower <-
    consteval (dB (VFloat LDouble (SFopp (SFmax_float 64 16384)))) ;;
  static_assert (value_is dbClampLower (int_ (-100))) (
  dbExactUpper <- consteval (dB (double_ 0 0)) ;;
  static_assert (value_is dbExactUpper (double_ 0 0)) (
  dbExactLower <- consteval (dB (double_ (-100) 0)) ;;
  static_assert (value_is dbExactLower (double_ (-100) 0)) (
  dbnExactUpper <- consteval (dBn (int_ 1000)) ;;
  static_assert (value_is dbnExactUpper (int_ 1000)) (
  dbnExactLower <- consteval (dBn (int_ 0)) ;;
  static_assert (value_is dbnExactLower (int_ 0)) (
  Ok 0)))))))))))).

(** * Properties *)

(** Bounds of the integral types, by arithmetic. *)
Ltac range_solver :=
  unfold in_range, imin, imax in *; cbn [is_signed bits] in *; lia.


(** ** The order of floating-point values *)

Section FloatOrder.

Lemma SFcompare_key x y :
  SFcompare x y =
  match sf_key x, sf_key y with
  | Some a, Some b => Some (lex3 a b)
  | _, _ => None
  end.
Proof.
  destruct x as [sx|sx| |sx mx ex], y as [sy|sy| |sy my ey];
    try destruct sx; try destruct sy; try reflexivity; cbn -[Z.compare].
  rewrite Z.compare_opp.
  change (-1 ?= -1) with Eq. cbv iota.
  rewrite (Z.compare_antisym ex ey).
  destruct (ex ?= ey); reflexivity.
Qed.

Lemma lex3_le_trans a b c :
  lex3 a b <> Gt -> lex3 b c <> Gt -> lex3 a c <> Gt.
Proof.
  destruct a as [[a1 a2] a3], b as [[b1 b2] b3], c as [[c1 c2] c3].
  unfold lex3.
  destruct (Z.compare_spec a1 b1), (Z.compare_spec b1 c1),
    (Z.compare_spec a1 c1); try lia; try congruence;
  destruct (Z.compare_spec a2 b2), (Z.compare_spec b2 c2),
    (Z.compare_spec a2 c2); try lia; try congruence;
  destruct (Z.compare_spec a3 b3), (Z.compare_spec b3 c3),
    (Z.compare_spec a3 c3); try lia; try congruence.
Qed.

Lemma lex3_antisym a b : lex3 b a = CompOpp (lex3 a b).
Proof.
  destruct a as [[a1 a2] a3], b as [[b1 b2] b3]. unfold lex3.
  rewrite (Z.compare_antisym a1 b1), (Z.compare_antisym a2 b2),
    (Z.compare_antisym a3 b3).
  destruct (a1 ?= b1), (a2 ?= b2), (a3 ?= b3); reflexivity.
Qed.

Lemma lex3_eq a b : lex3 a b = Eq -> a = b.
Proof.
  destruct a as [[a1 a2] a3], b as [[b1 b2] b3]. unfold lex3.
  destruct (Z.compare_spec a1 b1); try discriminate.
  destruct (Z.compare_spec a2 b2); try discriminate.
  destruct (Z.compare_spec a3 b3); try discriminate.
  congruence.
Qed.

(** Two values that compare equal are the same value, unless both are
    zeros (of either sign). *)
Lemma sf_key_inj x y k :
  sf_key x = Some k -> sf_key y = Some k ->
  x = y \/ (exists s t, x = S754_zero s /\ y = S754_zero t).
Proof.
  destruct x as [sx|sx| |sx mx ex], y as [sy|sy| |sy my ey];
    try destruct sx; try destruct sy; cbn; intros Hx Hy;
    try discriminate; try (rewrite <- Hx in Hy; discriminate);
    try (left; reflexivity); try (right; eauto; fail);
    rewrite <- Hx in Hy; inversion Hy; left; f_equal; lia.
Qed.

End FloatOrder.

(** ** Types and conversions *)

Lemma itype_eqb_eq i j : itype_eqb i j = true <-> i = j.
Proof. split; [destruct i, j; simpl; congruence | intros ->; destruct j; reflexivity]. Qed.

Lemma ftype_eqb_eq f g : ftype_eqb f g = true <-> f = g.
Proof. split; [destruct f, g; simpl; congruence | intros ->; destruct g; reflexivity]. Qed.

Lemma itype_eqb_refl i : itype_eqb i i = true.
Proof. now apply itype_eqb_eq. Qed.

Lemma ftype_eqb_refl f : ftype_eqb f f = true.
Proof. now apply ftype_eqb_eq. Qed.

Lemma is_arithmetic_type_of v : is_arithmetic (type_of v) = true.
Proof. destruct v; reflexivity. Qed.

Lemma CanContainBounds_arithmetic T Min Max :
  CanContainBounds T Min Max = true -> is_arithmetic T = true.
Proof. unfold CanContainBounds. now intros [H _]%andb_prop. Qed.

(** A cast to the type a value has returns the value. *)
Lemma static_cast_same v : static_cast (type_of v) v = Ok v.
Proof.
  destruct v; simpl; [rewrite itype_eqb_refl | rewrite ftype_eqb_refl]; reflexivity.
Qed.

(** A cast yields a value of the type cast to. *)
Lemma static_cast_type T v w : static_cast T v = Ok w -> type_of w = T.
Proof.
  destruct T as [i|f|], v as [j n|g x]; simpl; try discriminate.
  - destruct (itype_eqb i j) eqn:E; intros [= <-]; [apply itype_eqb_eq in E; subst|]; reflexivity.
  - destruct (float_to_int i x); simpl; try discriminate. now intros [= <-].
  - now intros [= <-].
  - destruct (ftype_eqb f g) eqn:E; intros [= <-]; [apply ftype_eqb_eq in E; subst|]; reflexivity.
Qed.

(** Only a cast to a type that is not arithmetic fails to compile. *)
Lemma static_cast_compiles T v :
  is_arithmetic T = true -> static_cast T v <> IllFormed.
Proof.
  destruct T as [i|f|], v as [j n|g x]; simpl; try discriminate.
  destruct (float_to_int i x) eqn:E; simpl; try discriminate.
  unfold float_to_int in E. destruct i; try discriminate;
    destruct (truncate x); try discriminate;
    match type of E with (if ?c then _ else _) = _ => destruct c end; discriminate.
Qed.

(** Casts into a floating-point type, and between integral types, are
    defined. *)
Lemma static_cast_total T v :
  is_arithmetic T = true ->
  (integral T = true -> integral (type_of v) = true) ->
  exists w, static_cast T v = Ok w.
Proof.
  destruct T as [i|f|], v as [j n|g x]; simpl; intros HT HI; eauto; try discriminate.
  specialize (HI eq_refl). discriminate.
Qed.

Lemma clamp_compiles v lo hi : clamp v lo hi <> IllFormed.
Proof. unfold clamp. destruct (lt hi lo); discriminate. Qed.

(** ** What compiles *)

Lemma bind_compiles {A B : Type} (o : outcome A) (k : A -> outcome B) :
  o <> IllFormed -> (forall a, k a <> IllFormed) -> bind o k <> IllFormed.
Proof. destruct o; simpl; auto; discriminate. Qed.

Lemma set_value_compiles T Min Max v :
  is_arithmetic T = true -> set_value T Min Max v <> IllFormed.
Proof.
  intros HT. pose proof (is_arithmetic_type_of v) as HU.
  unfold set_value. destruct (CanContainBounds (type_of v) Min Max);
    repeat (apply bind_compiles; [ | intros ?]);
    auto using static_cast_compiles, clamp_compiles.
Qed.

Lemma set_accepts_iff T U :
  set_accepts T U = true <->
  (integral T = true /\ integral U = true) \/
  (floating_point T = true /\ floating_point U = true) \/
  (floating_point T = true /\ integral U = true).
Proof.
  unfold set_accepts, SameNumericType.
  destruct (integral T), (integral U), (floating_point T), (floating_point U);
    simpl; intuition congruence.
Qed.

(** ** The concepts *)

(** The concept, conjunct by conjunct, with the comparisons as C++ makes
    them. *)
Lemma CanContainBounds_unfold T Min Max :
  CanContainBounds T Min Max = true <->
  is_arithmetic T = true /\
  exists hi lo,
    numeric_limits_max T = Some hi /\ numeric_limits_lowest T = Some lo /\
    ge hi Max = true /\ le lo Min = true /\ le Min Max = true.
Proof.
  unfold CanContainBounds. rewrite andb_true_iff.
  destruct T as [i|f|]; cbn [numeric_limits_max numeric_limits_lowest];
    rewrite ?andb_true_iff; split.
  - intros [A [[B C] D]]. eauto 10.
  - intros [A (hi & lo & [= <-] & [= <-] & B & C & D)]. auto.
  - intros [A [[B C] D]]. eauto 10.
  - intros [A (hi & lo & [= <-] & [= <-] & B & C & D)]. auto.
  - intros [_ [=]].
  - intros [[=] _].
Qed.

(** The limits of a type are bounds it can contain, and so is a single
    value repeated. *)
Lemma CanContainBounds_own_limits T lo hi :
  numeric_limits_lowest T = Some lo -> numeric_limits_max T = Some hi ->
  CanContainBounds T lo hi = true /\
  CanContainBounds T lo lo = true /\
  CanContainBounds T hi hi = true.
Proof.
  destruct T as [i|f|]; simpl; try discriminate; intros [= <-] [= <-];
    [destruct i | destruct f]; repeat split; vm_compute; reflexivity.
Qed.

(** C7.  [SameNumericType<T, U>] holds exactly when both types are integral
    or both are floating-point; a pair of an integral and a floating-point
    type never satisfies it, in either order. *)
Theorem SameNumericType_spec :
  (forall T U,
      SameNumericType T U = true <->
      (integral T = true /\ integral U = true) \/
      (floating_point T = true /\ floating_point U = true)) /\
  (forall i f,
      SameNumericType (TInt i) (TFloat f) = false /\
      SameNumericType (TFloat f) (TInt i) = false).
Proof.
  split.
  - intros T U. unfold SameNumericType.
    rewrite orb_true_iff, !andb_true_iff. reflexivity.
  - intros i f. split; reflexivity.
Qed.

(** ** The constraint on construction and [set] *)

(** C5.  In a class [BoundedNumber<T, Min, Max>] that exists, constructing
    from or setting a value of type [U] compiles exactly when [T] and [U]
    are both integral, or both floating-point, or [T] is floating-point
    and [U] integral.  Whether it compiles depends on the type of the
    value only; a floating-point value never goes into an integral
    storage. *)
Theorem set_accepted_types T Min Max (HT : CanContainBounds T Min Max = true) :
  (forall self v,
      set T Min Max self v <> IllFormed <->
      (integral T = true /\ integral (type_of v) = true) \/
      (floating_point T = true /\ floating_point (type_of v) = true) \/
      (floating_point T = true /\ integral (type_of v) = true)) /\
  (forall v,
      construct T Min Max v <> IllFormed <->
      (integral T = true /\ integral (type_of v) = true) \/
      (floating_point T = true /\ floating_point (type_of v) = true) \/
      (floating_point T = true /\ integral (type_of v) = true)) /\
  (forall self v,
      integral T = true -> floating_point (type_of v) = true ->
      set T Min Max self v = IllFormed /\ construct T Min Max v = IllFormed).
Proof.
  assert (A : forall self v,
      set T Min Max self v <> IllFormed <-> set_accepts T (type_of v) = true).
  { intros self v. unfold set. rewrite HT. simpl.
    destruct (set_accepts T (type_of v)); simpl.
    - split; [reflexivity|]. intros _.
      apply bind_compiles; [|discriminate].
      apply set_value_compiles. eapply CanContainBounds_arithmetic, HT.
    - split; [congruence | discriminate]. }
  split; [|split].
  - intros self v. rewrite A. apply set_accepts_iff.
  - intros v. unfold construct. rewrite A. apply set_accepts_iff.
  - intros self v HI HF.
    assert (E : set_accepts T (type_of v) = false).
    { destruct T, v; simpl in *; try discriminate; reflexivity. }
    unfold construct, set. rewrite HT, E. split; reflexivity.
Qed.

Lemma set_accepted_types_witness :
  dBn_set uninitialized (int_ 10) <> IllFormed /\
  dBn (VFloat Double (S754_zero false)) = IllFormed.
Proof.
  assert (HT : CanContainBounds (TInt Int) (int_ 0) (int_ 1000) = true)
    by reflexivity.
  destruct (set_accepted_types (TInt Int) (int_ 0) (int_ 1000) HT)
    as (Hset & _ & Hrej).
  split.
  - apply Hset. left. split; reflexivity.
  - apply (Hrej uninitialized (VFloat Double (S754_zero false)));
      reflexivity.
Defined.

(** ** The assignment algorithm *)


(** ** Integral conversions *)

Lemma wrap_in_range i n : in_range i n -> wrap i n = n.
Proof.
  unfold in_range, wrap, imin, imax.
  destruct i; cbn [is_signed bits]; intros H;
    try (destruct (Z.eqb_spec n 0); lia);
    rewrite Z.mod_small; lia.
Qed.

Lemma wrap_range i n : in_range i (wrap i n).
Proof.
  unfold in_range, wrap, imin, imax.
  destruct i; cbn [is_signed bits];
    try (destruct (Z.eqb_spec n 0); lia);
    match goal with
    | |- context [?a mod ?m] => pose proof (Z.mod_pos_bound a m ltac:(lia))
    end; lia.
Qed.

Lemma promote_range i n : in_range i n -> in_range (promote i) n.
Proof.
  unfold in_range, imin, imax. destruct i; cbn [promote is_signed bits]; lia.
Qed.

(** Values of one integral type compare as the integers they hold. *)
Lemma compare_int_same i n m :
  in_range i n -> in_range i m ->
  compare (VInt i n) (VInt i m) = Some (n ?= m).
Proof.
  intros Hn Hm. unfold compare, common_int.
  rewrite itype_eqb_refl, !wrap_in_range by now apply promote_range.
  reflexivity.
Qed.

(** With bounds of the type [T] itself the concept says what it should. *)
Lemma CanContainBounds_same_int i a b :
  in_range i a -> in_range i b ->
  CanContainBounds (TInt i) (VInt i a) (VInt i b) = true <-> a <= b.
Proof.
  intros Ha Hb. unfold CanContainBounds, ge, le.
  cbn [is_arithmetic numeric_limits_max numeric_limits_lowest andb].
  rewrite !compare_int_same by (assumption || range_solver).
  destruct (Z.compare_spec (imax i) b) as [E1|E1|E1],
    (Z.compare_spec (imin i) a) as [E2|E2|E2],
    (Z.compare_spec a b) as [E3|E3|E3]; cbn [andb]; split; intros G;
    (reflexivity || discriminate || range_solver).
Qed.

(** ** The order on the values of one type *)

Section ValueOrder.

Lemma lex3_refl a : lex3 a a = Eq.
Proof.
  destruct a as [[a1 a2] a3]. unfold lex3. now rewrite !Z.compare_refl.
Qed.

Lemma compare_key a b :
  type_of a = type_of b ->
  compare a b =
  match vkey a, vkey b with
  | Some x, Some y => Some (lex3 x y)
  | _, _ => None
  end.
Proof.
  destruct a as [i n|f x], b as [j m|g y]; simpl; try discriminate.
  - intros [= <-]. unfold common_int. now rewrite itype_eqb_refl.
  - intros [= <-]. unfold common_float, to_common_float.
    rewrite Z.leb_refl, ftype_eqb_refl. apply SFcompare_key.
Qed.

Variables a b c : num.
Hypothesis Hab : type_of a = type_of b.
Hypothesis Hbc : type_of b = type_of c.

Lemma le_lt_false : le a b = true -> lt b a = false.
Proof.
  unfold le, lt. rewrite (compare_key a b), (compare_key b a) by congruence.
  destruct (vkey a) as [x|], (vkey b) as [y|]; try discriminate; try reflexivity.
  rewrite (lex3_antisym x y). destruct (lex3 x y); simpl; congruence.
Qed.

Lemma le_le_lt_false : le a b = true -> le b c = true -> lt c a = false.
Proof.
  unfold le, lt.
  rewrite (compare_key a b), (compare_key b c), (compare_key c a) by congruence.
  destruct (vkey a) as [x|], (vkey b) as [y|], (vkey c) as [z|];
    try discriminate; try reflexivity.
  intros H1 H2.
  assert (G : lex3 x z <> Gt).
  { apply (lex3_le_trans x y z).
    - destruct (lex3 x y); congruence.
    - destruct (lex3 y z); congruence. }
  rewrite (lex3_antisym x z). destruct (lex3 x z); simpl; congruence.
Qed.

Lemma le_refl_l : le a b = true -> le a a = true.
Proof.
  unfold le. rewrite (compare_key a b), (compare_key a a) by congruence.
  destruct (vkey a) as [x|]; [|discriminate]. now rewrite lex3_refl.
Qed.

Lemma le_refl_r : le a b = true -> le b b = true.
Proof.
  unfold le. rewrite (compare_key a b), (compare_key b b) by congruence.
  destruct (vkey a) as [x|], (vkey b) as [y|]; try discriminate.
  now rewrite lex3_refl.
Qed.

(** Of two comparable values, one not below the other that is not above
    it either has the same key. *)
Lemma le_not_lt_key : le a b = true -> lt a b = false -> vkey a = vkey b.
Proof.
  unfold le, lt. rewrite (compare_key a b) by congruence.
  destruct (vkey a) as [x|], (vkey b) as [y|]; try discriminate.
  destruct (lex3 x y) eqn:E; try discriminate.
  intros _ _. f_equal. now apply lex3_eq.
Qed.

End ValueOrder.

(** ** [std::clamp] *)

(** A value between the bounds is returned as it is. *)
Lemma clamp_between v lo hi :
  type_of lo = type_of v -> type_of v = type_of hi ->
  le lo v = true -> le v hi = true -> clamp v lo hi = Ok v.
Proof.
  intros H1 H2 L1 L2. unfold clamp.
  rewrite (le_le_lt_false lo v hi H1 H2 L1 L2).
  rewrite (le_lt_false lo v H1 L1), (le_lt_false v hi H2 L2).
  reflexivity.
Qed.

(** On one integral type it is the clamp of the integers. *)
Lemma clamp_int i n lo hi :
  in_range i n -> in_range i lo -> in_range i hi -> lo <= hi ->
  clamp (VInt i n) (VInt i lo) (VInt i hi) = Ok (VInt i (Z.max lo (Z.min n hi))).
Proof.
  intros Hn Hlo Hhi Hle. unfold clamp, lt.
  rewrite !compare_int_same by assumption.
  destruct (Z.compare_spec hi lo); try lia;
    destruct (Z.compare_spec n lo); destruct (Z.compare_spec hi n);
    try lia; do 2 f_equal; lia.
Qed.

(** ** The alias [dBn] *)

Lemma static_cast_int_fits i j n :
  in_range i n -> static_cast (TInt i) (VInt j n) = Ok (VInt i n).
Proof.
  intros H. simpl. destruct (itype_eqb i j) eqn:E.
  - apply itype_eqb_eq in E. now subst.
  - now rewrite wrap_in_range.
Qed.

(** On every integral input [dBn] stores the input saturated to
    [0, 1000]. *)
Lemma dBn_integral i n :
  in_range i n ->
  dBn (VInt i n) = Ok {| m_value := Some (int_ (Z.max 0 (Z.min n 1000))) |}.
Proof.
  intros Hn. unfold dBn, construct, set, set_value, int_. cbn [type_of].
  replace (CanContainBounds (TInt Int) (VInt Int 0) (VInt Int 1000))
    with true by (vm_compute; reflexivity).
  replace (set_accepts (TInt Int) (TInt i)) with true by reflexivity.
  cbn [negb].
  destruct (CanContainBounds (TInt i) (VInt Int 0) (VInt Int 1000)) eqn:E.
  - assert (H0 : in_range i 0 /\ in_range i 1000).
    { destruct i; try (vm_compute in E; discriminate E); split; range_solver. }
    destruct H0 as [H0 H1].
    rewrite !static_cast_int_fits by assumption. cbn [bind].
    rewrite clamp_int by (assumption || lia). cbn [bind].
    rewrite static_cast_int_fits by range_solver. reflexivity.
  - assert (H0 : in_range Int n).
    { destruct i; try (vm_compute in E; discriminate E); range_solver. }
    rewrite !static_cast_int_fits by (assumption || range_solver). cbn [bind].
    rewrite clamp_int by (assumption || range_solver). reflexivity.
Qed.

(** ** Integral inputs into integral storage

    Where no conversion changes a value, [set] stores the input saturated
    to the bounds: the bounds must fit the type in which the clamp runs and
    the storage type, and an input that is narrowed first must fit the
    storage type. *)

Lemma set_value_integral t u ta tb a b n :
  in_range u n -> in_range t a -> in_range t b -> a <= b ->
  (if CanContainBounds (TInt u) (VInt ta a) (VInt tb b)
   then in_range u a /\ in_range u b
   else in_range t n) ->
  set_value (TInt t) (VInt ta a) (VInt tb b) (VInt u n)
  = Ok (VInt t (Z.max a (Z.min n b))).
Proof.
  intros Hn Ha Hb Hab H. unfold set_value. cbn [type_of].
  destruct (CanContainBounds (TInt u) (VInt ta a) (VInt tb b)).
  - destruct H as [Ua Ub].
    rewrite !static_cast_int_fits by assumption. cbn [bind].
    rewrite clamp_int by assumption. cbn [bind].
    apply static_cast_int_fits. range_solver.
  - rewrite !static_cast_int_fits by assumption. cbn [bind].
    now apply clamp_int.
Qed.

(** ** The literal operator *)

(** C8.  An integer literal with the suffix [_dbn] (one that fits the
    operator's [unsigned long long] parameter) is, at compile time, the
    [dBn] constructed from it: the literal saturated to 1000.  A
    floating-point literal with the suffix does not compile. *)
Theorem literal_dbn :
  (forall n : N,
      Z.of_N n <= imax ULLong ->
      user_defined_literal (IntegerLiteral n) = dBn (VInt ULLong (Z.of_N n)) /\
      user_defined_literal (IntegerLiteral n) =
        Ok {| m_value := Some (int_ (Z.min (Z.of_N n) 1000)) |}) /\
  (forall x, user_defined_literal (FloatingLiteral x) = IllFormed).
Proof.
  split; [|reflexivity].
  intros n Hn.
  assert (R : in_range ULLong (Z.of_N n)).
  { split; [apply N2Z.is_nonneg | exact Hn]. }
  unfold user_defined_literal, operator_dbn.
  apply Z.leb_le in Hn. rewrite Hn.
  rewrite (dBn_integral ULLong _ R).
  replace (Z.max 0 (Z.min (Z.of_N n) 1000)) with (Z.min (Z.of_N n) 1000)
    by (pose proof (N2Z.is_nonneg n); lia).
  split; reflexivity.
Qed.

Lemma literal_dbn_witness :
  user_defined_literal (IntegerLiteral 10) = dBn (VInt ULLong 10) /\
  user_defined_literal (IntegerLiteral 10) = Ok {| m_value := Some (int_ 10) |} /\
  user_defined_literal (IntegerLiteral 5000) = Ok {| m_value := Some (int_ 1000) |}.
Proof.
  destruct literal_dbn as [H _].
  destruct (H 10%N ltac:(vm_compute; discriminate)) as [H1 H2].
  destruct (H 5000%N ltac:(vm_compute; discriminate)) as [_ H3].
  repeat split; assumption.
Defined.

(** ** Clamping at and between the bounds *)

Lemma clamp_at_upper v lo hi :
  type_of lo = type_of hi -> type_of hi = type_of v ->
  le lo hi = true -> le hi v = true ->
  (vkey hi = vkey v -> v = hi) ->
  clamp v lo hi = Ok hi.
Proof.
  intros H1 H2 L1 L2 K. unfold clamp.
  rewrite (le_lt_false lo hi H1 L1).
  rewrite (le_le_lt_false lo hi v H1 H2 L1 L2).
  destruct (lt hi v) eqn:E; [reflexivity|].
  f_equal. apply K. now apply le_not_lt_key.
Qed.

Lemma clamp_at_lower v lo hi :
  type_of v = type_of lo -> type_of lo = type_of hi ->
  le v lo = true -> le lo hi = true ->
  (vkey v = vkey lo -> v = lo) ->
  clamp v lo hi = Ok lo.
Proof.
  intros H1 H2 L1 L2 K. unfold clamp.
  rewrite (le_lt_false lo hi H2 L2).
  destruct (lt v lo) eqn:E; [reflexivity|].
  rewrite (K (le_not_lt_key v lo H1 L1 E)).
  now rewrite (le_lt_false lo hi H2 L2).
Qed.

(** The limits of a type are told from its other well-formed values by
    their keys. *)
Lemma vkey_int_inj i n m :
  in_range i n -> in_range i m ->
  vkey (VInt i n) = vkey (VInt i m) -> VInt i n = VInt i m.
Proof.
  intros Hn Hm. simpl.
  rewrite !wrap_in_range by now apply promote_range.
  now intros [= ->].
Qed.

Lemma vkey_finite_inj f g s m e y :
  f = g ->
  vkey (VFloat f (S754_finite s m e)) = vkey (VFloat g y) ->
  VFloat f (S754_finite s m e) = VFloat g y.
Proof.
  intros <-. cbn [vkey]. intros K.
  destruct (sf_key (S754_finite s m e)) as [k|] eqn:E.
  - destruct (sf_key_inj _ _ k E (eq_sym K)) as [<- | (? & ? & ? & _)];
      [reflexivity | discriminate].
  - destruct s; discriminate.
Qed.

Lemma vkey_max_inj U vmax w :
  numeric_limits_max U = Some vmax -> type_of w = U -> wf_value w ->
  vkey w = vkey vmax -> vmax = w.
Proof.
  destruct U as [i|f|], w as [j n|g x]; simpl; try discriminate;
    intros [= <-] [= ->] Hw K.
  - apply vkey_int_inj; [range_solver | exact Hw | now symmetry].
  - apply vkey_finite_inj; [reflexivity | now symmetry].
Qed.

Lemma vkey_lowest_inj U vmin w :
  numeric_limits_lowest U = Some vmin -> type_of w = U -> wf_value w ->
  vkey vmin = vkey w -> vmin = w.
Proof.
  destruct U as [i|f|], w as [j n|g x]; simpl; try discriminate;
    intros [= <-] [= ->] Hw K.
  - apply vkey_int_inj; [range_solver | exact Hw | assumption].
  - apply vkey_finite_inj; [reflexivity | assumption].
Qed.

(** A cast of a well-formed value to an integral type is well formed. *)
Lemma static_cast_int_wf i v w :
  wf_value v -> static_cast (TInt i) v = Ok w ->
  match w with VInt _ n => in_range i n | VFloat _ _ => False end.
Proof.
  destruct v as [j n|g x]; simpl; intros Hv.
  - destruct (itype_eqb i j) eqn:E; intros [= <-].
    + apply itype_eqb_eq in E. now subst.
    + apply wrap_range.
  - destruct (float_to_int i x) as [n| |] eqn:E; simpl; try discriminate.
    intros [= <-]. unfold float_to_int in E.
    destruct i;
      try (destruct (truncate x) as [k|]; [|discriminate];
           destruct (in_rangeb _ k) eqn:R; [|discriminate];
           injection E as <-; unfold in_rangeb in R;
           apply andb_prop in R as [R1 R2];
           apply Z.leb_le in R1, R2; split; assumption).
    injection E as <-. destruct x; range_solver.
Qed.

(** What [set] accepts can be cast to the storage type. *)
Lemma accepted_cast_total T U v :
  is_arithmetic T = true -> set_accepts T U = true -> type_of v = U ->
  exists w, static_cast T v = Ok w.
Proof.
  intros HT HA <-. apply static_cast_total; [exact HT|].
  intros HI. apply set_accepts_iff in HA.
  destruct T; try discriminate. destruct HA as [[_ H]|[[H _]|[H _]]];
    [exact H | discriminate | discriminate].
Qed.

(** ** Values inside the bounds *)

Section InRange.

Variable T : ctype.
Variables Min Max : num.
Hypothesis HT : CanContainBounds T Min Max = true.

Lemma set_accepts_storage : set_accepts T T = true.
Proof. unfold set_accepts, SameNumericType. now destruct T. Qed.

(** What [set] stores for an accepted input, from what it computes. *)
Lemma set_stores self v s :
  set_accepts T (type_of v) = true ->
  set_value T Min Max v = Ok s ->
  set T Min Max self v = Ok {| m_value := Some s |}.
Proof. intros HA HS. unfold set. now rewrite HT, HA, HS. Qed.


(** A value of the storage type inside the bounds is a fixed point of the
    assignment. *)
Lemma set_value_fixed s :
  type_of s = T -> in_bounds T Min Max s = true ->
  set_value T Min Max s = Ok s.
Proof.
  intros Ts Hin. unfold in_bounds in Hin.
  destruct (static_cast T Min) as [lo| |] eqn:Hlo; try discriminate.
  destruct (static_cast T Max) as [hi| |] eqn:Hhi; try discriminate.
  apply andb_prop in Hin as [L1 L2].
  pose proof (static_cast_type _ _ _ Hlo) as Tlo.
  pose proof (static_cast_type _ _ _ Hhi) as Thi.
  unfold set_value. rewrite Ts, HT, Hlo, Hhi. cbn [bind].
  rewrite clamp_between by congruence. cbn [bind].
  rewrite <- Ts. apply static_cast_same.
Qed.

(** Setting an object to the value it holds, when that is a value of the
    storage type inside the bounds, leaves the object as it is, and
    constructing from that value yields an object equal to it. *)
Theorem set_idempotent (b : BoundedNumber) s :
  value b = Some s ->
  type_of s = T ->
  in_bounds T Min Max s = true ->
  set T Min Max b s = Ok b /\ construct T Min Max s = Ok b.
Proof.
  intros Hb Ts Hin. destruct b as [m]. cbn in Hb. subst m.
  assert (A : set_accepts T (type_of s) = true)
    by (rewrite Ts; apply set_accepts_storage).
  pose proof (set_value_fixed s Ts Hin) as S.
  split; [|unfold construct]; now apply set_stores.
Qed.

End InRange.

(** ** Saturation at the limits of the input type *)

Section Saturation.

Variable T : ctype.
Variables Min Max : num.
Hypothesis HT : CanContainBounds T Min Max = true.

(** Let [U] be an accepted input type that can hold the bounds, with the
    bounds, converted to [U], in order and between the limits of [U].
    Then assigning the largest value of [U] stores [Max], and assigning
    the lowest value of [U] stores [Min], each converted to [U] and from
    there to the storage type. *)
Theorem set_saturates_at_limits self U vmin vmax lo hi :
  set_accepts T U = true ->
  CanContainBounds U Min Max = true ->
  wf_value Min -> wf_value Max ->
  numeric_limits_lowest U = Some vmin ->
  numeric_limits_max U = Some vmax ->
  static_cast U Min = Ok lo ->
  static_cast U Max = Ok hi ->
  le vmin lo = true -> le lo hi = true -> le hi vmax = true ->
  (exists y, static_cast T hi = Ok y /\
             set T Min Max self vmax = Ok {| m_value := Some y |}) /\
  (exists y, static_cast T lo = Ok y /\
             set T Min Max self vmin = Ok {| m_value := Some y |}).
Proof.
  intros HA HU WMin WMax Hvmin Hvmax Hlo Hhi L1 L2 L3.
  pose proof (CanContainBounds_arithmetic T Min Max HT) as AT.
  pose proof (static_cast_type _ _ _ Hlo) as Tlo.
  pose proof (static_cast_type _ _ _ Hhi) as Thi.
  assert (Tmax : type_of vmax = U)
    by (destruct U; simpl in Hvmax; try discriminate;
        injection Hvmax as <-; reflexivity).
  assert (Tmin : type_of vmin = U)
    by (destruct U; simpl in Hvmin; try discriminate;
        injection Hvmin as <-; reflexivity).
  assert (Wlo : wf_value lo \/ exists f, U = TFloat f).
  { destruct U as [i|f|]; [left | right; eauto | discriminate].
    pose proof (static_cast_int_wf i Min lo WMin Hlo) as W.
    destruct lo; [|contradiction]. simpl in Tlo. injection Tlo as ->. exact W. }
  assert (Whi : wf_value hi \/ exists f, U = TFloat f).
  { destruct U as [i|f|]; [left | right; eauto | discriminate].
    pose proof (static_cast_int_wf i Max hi WMax Hhi) as W.
    destruct hi; [|contradiction]. simpl in Thi. injection Thi as ->. exact W. }
  assert (Khi : vkey hi = vkey vmax -> vmax = hi).
  { intros K. destruct Whi as [W | [f ->]].
    - now apply (vkey_max_inj U).
    - simpl in Hvmax. injection Hvmax as <-.
      destruct hi as [|g y]; [discriminate|].
      apply vkey_finite_inj; [simpl in Thi; congruence | now symmetry]. }
  assert (Klo : vkey vmin = vkey lo -> vmin = lo).
  { intros K. destruct Wlo as [W | [f ->]].
    - now apply (vkey_lowest_inj U).
    - simpl in Hvmin. injection Hvmin as <-.
      destruct lo as [|g y]; [discriminate|].
      apply vkey_finite_inj; [simpl in Tlo; congruence | assumption]. }
  split.
  - destruct (accepted_cast_total T U hi AT HA Thi) as [y Hy].
    exists y. split; [exact Hy|].
    apply set_stores; [exact HT | now rewrite Tmax |].
    unfold set_value. rewrite Tmax, HU, Hlo, Hhi. cbn [bind].
    rewrite clamp_at_upper by (assumption || congruence). exact Hy.
  - destruct (accepted_cast_total T U lo AT HA Tlo) as [y Hy].
    exists y. split; [exact Hy|].
    apply set_stores; [exact HT | now rewrite Tmin |].
    unfold set_value. rewrite Tmin, HU, Hlo, Hhi. cbn [bind].
    rewrite clamp_at_lower by (assumption || congruence). exact Hy.
Qed.

End Saturation.

(** ** The examples of [main] *)

Lemma main_examples_dBn :
  dBn (int_ 10) = stored (int_ 10) /\
  dBn (VInt ULLong (imax ULLong)) = stored (int_ 1000) /\
  dBn (VInt LLong (imin LLong)) = stored (int_ 0) /\
  user_defined_literal (IntegerLiteral 10) = stored (int_ 10) /\
  dBn (int_ 1000) = stored (int_ 1000) /\
  dBn (int_ 0) = stored (int_ 0).
Proof. repeat split; vm_compute; reflexivity. Qed.

Lemma main_examples_dB :
  dB (double_ (-21) (-1)) = stored (double_ (-21) (-1)) /\
  dB (int_ (-10)) = stored (double_ (-10) 0) /\
  dB (VFloat LDouble (SFmax_float 64 16384)) = stored (double_ 0 0) /\
  dB (VFloat LDouble (SFopp (SFmax_float 64 16384))) = stored (double_ (-100) 0) /\
  dB (double_ 0 0) = stored (double_ 0 0) /\
  dB (double_ (-100) 0) = stored (double_ (-100) 0).
Proof. repeat split; vm_compute; reflexivity. Qed.

(** The rejections [main] lists in its comments. *)
Lemma main_rejections :
  dBn (double_ 10 0) = IllFormed /\
  construct (TInt UChar) (int_ (-128)) (int_ 127) (int_ 128) = IllFormed /\
  user_defined_literal (FloatingLiteral (S754_finite false 11875091497450523853 (-60)))
    = IllFormed.
Proof. repeat split; vm_compute; reflexivity. Qed.

(** [dBn] keeps its invariant on every integral input. *)
Lemma dBn_invariant i n :
  in_range i n ->
  exists s, dBn (VInt i n) = stored s /\
            in_bounds (TInt Int) (int_ 0) (int_ 1000) s = true.
Proof.
  intros Hn. eexists. split; [now apply dBn_integral|].
  unfold in_bounds, int_.
  rewrite !static_cast_int_fits by range_solver.
  unfold le. rewrite !compare_int_same by range_solver.
  apply andb_true_intro. split.
  - destruct (Z.compare_spec 0 (Z.max 0 (Z.min n 1000))); (reflexivity || lia).
  - destruct (Z.compare_spec (Z.max 0 (Z.min n 1000)) 1000); (reflexivity || lia).
Qed.

(** Every [dBn] made from an integral value is left as it is by setting
    it to the value it holds. *)
Lemma dBn_reset i n :
  in_range i n ->
  exists b s, dBn (VInt i n) = Ok b /\ value b = Some s /\
              dBn_set b s = Ok b.
Proof.
  intros Hn. destruct (dBn_invariant i n Hn) as (s & Hs & Hin).
  exists {| m_value := Some s |}, s. split; [exact Hs|]. split; [reflexivity|].
  assert (HT : CanContainBounds (TInt Int) (int_ 0) (int_ 1000) = true)
    by (vm_compute; reflexivity).
  assert (Ts : type_of s = TInt Int).
  { rewrite (dBn_integral i n Hn) in Hs. now injection Hs as <-. }
  apply set_stores; [exact HT | rewrite Ts; reflexivity |].
  now apply set_value_fixed.
Qed.

(** ** Where the concept and the clamp go wrong *)

(** C6.  [CanContainBounds<unsigned int, -1, 10>] holds, although the
    lowest [unsigned int], 0, is above -1: the comparison [0u <= -1]
    converts -1 to [unsigned int], where it is 4294967295.  The
    same bounds on [unsigned char], which is promoted to [int], are
    refused, as are the bounds -128 and 127 that [main] names. *)
Theorem CanContainBounds_unsigned_negative :
  CanContainBounds (TInt UInt) (int_ (-1)) (int_ 10) = true /\
  numeric_limits_lowest (TInt UInt) = Some (VInt UInt (imin UInt)) /\
  ~ (imin UInt <= -1) /\
  le (VInt UInt 0) (int_ (-1)) = true /\
  static_cast (TInt UInt) (int_ (-1)) = Ok (VInt UInt 4294967295) /\
  CanContainBounds (TInt UChar) (int_ (-1)) (int_ 10) = false /\
  CanContainBounds (TInt UChar) (int_ (-128)) (int_ 127) = false.
Proof. repeat split; try (vm_compute; reflexivity). range_solver. Qed.

(** C9.  [CanContainBounds<int, 0.0f, 2147483648.0f>] holds, although the
    upper bound is 2^31 and the largest [int] is 2^31 - 1: the comparison
    converts the largest [int] to [float], which rounds it up to 2^31.
    In the class so admitted, [set] casts the upper bound to [int], which
    is undefined.  The same happens on [long long] with the [double]
    2^63. *)
Theorem CanContainBounds_rounds_limit :
  let zero := VFloat Float (S754_zero false) in
  let two31 := VFloat Float (S754_finite false 8388608 8) in
  let two63 := VFloat Double (S754_finite false 4503599627370496 11) in
  CanContainBounds (TInt Int) zero two31 = true /\
  truncate (S754_finite false 8388608 8) = Some (2 ^ 31) /\
  imax Int = 2 ^ 31 - 1 /\
  int_to_float Float (imax Int) = S754_finite false 8388608 8 /\
  construct (TInt Int) zero two31 (int_ 5) = Undefined /\
  CanContainBounds (TInt LLong) (double_ 0 0) two63 = true /\
  truncate (S754_finite false 4503599627370496 11) = Some (2 ^ 63) /\
  imax LLong = 2 ^ 63 - 1.
Proof. repeat split; vm_compute; reflexivity. Qed.

(** C1.  The class [BoundedNumber<unsigned int, -1, 10>] passes the concept;
    constructed from the [int] -1 it stores 4294967295, which is outside
    the bounds however they are read.  On the alias [dB], whose lower
    bound is the [int] -100, an [unsigned int] input makes [set] call
    [std::clamp] with the lower bound 4294967196 and the upper bound 0,
    which is undefined. *)
Theorem invariant_broken :
  CanContainBounds (TInt UInt) (int_ (-1)) (int_ 10) = true /\
  set_accepts (TInt UInt) (TInt Int) = true /\
  construct (TInt UInt) (int_ (-1)) (int_ 10) (int_ (-1))
    = stored (VInt UInt 4294967295) /\
  in_bounds (TInt UInt) (int_ (-1)) (int_ 10) (VInt UInt 4294967295) = false /\
  ~ (4294967295 <= 10) /\
  CanContainBounds (TFloat Double) (int_ (-100)) (int_ 0) = true /\
  set_accepts (TFloat Double) (TInt UInt) = true /\
  CanContainBounds (TInt UInt) (int_ (-100)) (int_ 0) = true /\
  static_cast (TInt UInt) (int_ (-100)) = Ok (VInt UInt 4294967196) /\
  dB (VInt UInt 5) = Undefined.
Proof. repeat split; try (vm_compute; reflexivity). lia. Qed.

(** A NaN passes through the clamp of [dB], every comparison with it being
    false. *)
Lemma dB_nan :
  dB (VFloat Double S754_nan) = stored (VFloat Double S754_nan) /\
  in_bounds (TFloat Double) (int_ (-100)) (int_ 0) (VFloat Double S754_nan)
    = false.
Proof. split; vm_compute; reflexivity. Qed.

(** An input type that cannot hold the bounds is narrowed before it is
    clamped: the [unsigned short] 65535 becomes the [signed char] -1. *)
Lemma narrowing_wraps :
  CanContainBounds (TInt SChar) (int_ (-5)) (int_ 100) = true /\
  CanContainBounds (TInt UShort) (int_ (-5)) (int_ 100) = false /\
  construct (TInt SChar) (int_ (-5)) (int_ 100) (VInt UShort 65535)
    = stored (VInt SChar (-1)).
Proof. repeat split; vm_compute; reflexivity. Qed.

(** C3, as stated, fails: [unsigned short] is accepted by
    [BoundedNumber<signed char, -5, 100>] and wider than its storage, and
    its lowest value, 0, is stored as 0, not as the lower bound -5. *)
Lemma saturation_counterexample :
  CanContainBounds (TInt SChar) (int_ (-5)) (int_ 100) = true /\
  set_accepts (TInt SChar) (TInt UShort) = true /\
  bits SChar < bits UShort /\
  numeric_limits_lowest (TInt UShort) = Some (VInt UShort 0) /\
  static_cast (TInt SChar) (int_ (-5)) = Ok (VInt SChar (-5)) /\
  construct (TInt SChar) (int_ (-5)) (int_ 100) (VInt UShort 0)
    = stored (VInt SChar 0) /\
  construct (TInt SChar) (int_ (-5)) (int_ 100) (VInt UShort 0)
    <> stored (VInt SChar (-5)).
Proof.
  repeat split; try (vm_compute; reflexivity).
  vm_compute. discriminate.
Qed.


(** ** Instances *)


Lemma set_idempotent_witness :
  let b := {| m_value := Some (int_ 10) |} in
  CanContainBounds (TInt Int) (int_ 0) (int_ 1000) = true /\
  in_bounds (TInt Int) (int_ 0) (int_ 1000) (int_ 10) = true /\
  dBn_set b (int_ 10) = Ok b /\ dBn (int_ 10) = Ok b.
Proof.
  assert (H1 : CanContainBounds (TInt Int) (int_ 0) (int_ 1000) = true)
    by (vm_compute; reflexivity).
  assert (H2 : in_bounds (TInt Int) (int_ 0) (int_ 1000) (int_ 10) = true)
    by (vm_compute; reflexivity).
  split; [exact H1|]. split; [exact H2|].
  exact (set_idempotent (TInt Int) (int_ 0) (int_ 1000) H1
           {| m_value := Some (int_ 10) |} (int_ 10) eq_refl eq_refl H2).
Defined.

Lemma set_saturates_at_limits_witness :
  (exists y, static_cast (TInt Int) (VInt ULLong 1000) = Ok y /\
             dBn_set uninitialized (VInt ULLong (imax ULLong))
               = Ok {| m_value := Some y |}) /\
  (exists y, static_cast (TInt Int) (VInt LLong 0) = Ok y /\
             dBn_set uninitialized (VInt LLong (imin LLong))
               = Ok {| m_value := Some y |}) /\
  (exists y, static_cast (TFloat Double) (VFloat LDouble (S754_zero false)) = Ok y /\
             dB_set uninitialized (VFloat LDouble (SFmax_float 64 16384))
               = Ok {| m_value := Some y |}) /\
  (exists y, static_cast (TFloat Double)
               (VFloat LDouble (int_to_float LDouble (-100))) = Ok y /\
             dB_set uninitialized (VFloat LDouble (SFopp (SFmax_float 64 16384)))
               = Ok {| m_value := Some y |}).
Proof.
  assert (H1 : CanContainBounds (TInt Int) (int_ 0) (int_ 1000) = true)
    by (vm_compute; reflexivity).
  assert (H2 : CanContainBounds (TFloat Double) (int_ (-100)) (int_ 0) = true)
    by (vm_compute; reflexivity).
  assert (W : forall n, -1000 <= n <= 1000 -> wf_value (int_ n))
    by (intros n Hn; unfold wf_value, int_; range_solver).
  pose proof (set_saturates_at_limits (TInt Int) (int_ 0) (int_ 1000) H1
    uninitialized (TInt ULLong) (VInt ULLong 0) (VInt ULLong (imax ULLong))
    (VInt ULLong 0) (VInt ULLong 1000)
    ltac:(reflexivity) ltac:(vm_compute; reflexivity)
    (W 0 ltac:(lia)) (W 1000 ltac:(lia))
    eq_refl eq_refl ltac:(vm_compute; reflexivity) ltac:(vm_compute; reflexivity)
    ltac:(vm_compute; reflexivity) ltac:(vm_compute; reflexivity)
    ltac:(vm_compute; reflexivity)) as [A1 _].
  pose proof (set_saturates_at_limits (TInt Int) (int_ 0) (int_ 1000) H1
    uninitialized (TInt LLong) (VInt LLong (imin LLong)) (VInt LLong (imax LLong))
    (VInt LLong 0) (VInt LLong 1000)
    ltac:(reflexivity) ltac:(vm_compute; reflexivity)
    (W 0 ltac:(lia)) (W 1000 ltac:(lia))
    eq_refl eq_refl ltac:(vm_compute; reflexivity) ltac:(vm_compute; reflexivity)
    ltac:(vm_compute; reflexivity) ltac:(vm_compute; reflexivity)
    ltac:(vm_compute; reflexivity)) as [_ A2].
  pose proof (set_saturates_at_limits (TFloat Double) (int_ (-100)) (int_ 0) H2
    uninitialized (TFloat LDouble)
    (VFloat LDouble (SFopp (SFmax_float 64 16384)))
    (VFloat LDouble (SFmax_float 64 16384))
    (VFloat LDouble (int_to_float LDouble (-100)))
    (VFloat LDouble (S754_zero false))
    ltac:(reflexivity) ltac:(vm_compute; reflexivity)
    (W (-100) ltac:(lia)) (W 0 ltac:(lia))
    eq_refl eq_refl ltac:(vm_compute; reflexivity) ltac:(vm_compute; reflexivity)
    ltac:(vm_compute; reflexivity) ltac:(vm_compute; reflexivity)
    ltac:(vm_compute; reflexivity)) as [A3 A4].
  repeat split; assumption.
Defined.

(** * Further properties *)

(** ** The relational operators, both ways round *)

Lemma common_int_sym i j : common_int i j = common_int j i.
Proof. destruct i, j; reflexivity. Qed.

Lemma common_float_sym f g : common_float f g = common_float g f.
Proof. destruct f, g; reflexivity. Qed.

Lemma SFcompare_antisym x y :
  SFcompare y x = option_map CompOpp (SFcompare x y).
Proof.
  rewrite !SFcompare_key.
  destruct (sf_key x) as [a|], (sf_key y) as [b|]; try reflexivity.
  simpl. now rewrite lex3_antisym.
Qed.

Lemma compare_antisym a b : compare b a = option_map CompOpp (compare a b).
Proof.
  destruct a as [i n|f x], b as [j m|g y]; unfold compare.
  - rewrite (common_int_sym j i). simpl. now rewrite Z.compare_antisym.
  - apply SFcompare_antisym.
  - apply SFcompare_antisym.
  - rewrite (common_float_sym g f). apply SFcompare_antisym.
Qed.

Lemma lt_le_false a b : lt a b = true -> le b a = false.
Proof.
  unfold lt, le. rewrite (compare_antisym a b).
  destruct (compare a b) as [[]|]; simpl; congruence.
Qed.

(** A NaN compares with nothing. *)
Lemma compare_nan_r a f : compare a (VFloat f S754_nan) = None.
Proof.
  destruct a as [i n|g x]; unfold compare.
  - now destruct (int_to_float f n).
  - unfold to_common_float.
    destruct (ftype_eqb (common_float g f) f); cbn [float_to_float];
      match goal with |- SFcompare ?u _ = _ => now destruct u end.
Qed.

Lemma compare_nan_l a f : compare (VFloat f S754_nan) a = None.
Proof. now rewrite compare_antisym, compare_nan_r. Qed.

(** Among the values of one type that compare with themselves the order
    is total. *)
Lemma lt_false_le a b :
  type_of a = type_of b -> le a a = true -> le b b = true ->
  lt a b = false -> le b a = true.
Proof.
  intros Hab. unfold le, lt.
  rewrite (compare_key a a), (compare_key b b), (compare_key a b),
    (compare_key b a) by congruence.
  destruct (vkey a) as [x|], (vkey b) as [y|]; try discriminate.
  intros _ _. rewrite (lex3_antisym x y).
  destruct (lex3 x y); simpl; congruence.
Qed.

(** ** [std::clamp], whatever it is given *)

Lemma clamp_cases v lo hi r :
  clamp v lo hi = Ok r -> r = v \/ r = lo \/ r = hi.
Proof.
  unfold clamp. destruct (lt hi lo); [discriminate|].
  destruct (lt v lo); [|destruct (lt hi v)]; intros [= <-]; auto.
Qed.

Lemma clamp_undefined v lo hi :
  clamp v lo hi = Undefined <-> lt hi lo = true.
Proof.
  unfold clamp. destruct (lt hi lo); split; (reflexivity || discriminate).
Qed.

Lemma clamp_lands_between v lo hi :
  type_of lo = type_of v -> type_of v = type_of hi ->
  le lo hi = true -> le v v = true ->
  exists r, clamp v lo hi = Ok r /\ le lo r = true /\ le r hi = true.
Proof.
  intros H1 H2 L V. unfold clamp.
  assert (Hlh : type_of lo = type_of hi) by congruence.
  rewrite (le_lt_false lo hi Hlh L).
  pose proof (le_refl_l lo hi Hlh L) as Rlo.
  pose proof (le_refl_r lo hi Hlh L) as Rhi.
  destruct (lt v lo) eqn:E1.
  - exists lo. auto.
  - destruct (lt hi v) eqn:E2.
    + exists hi. auto.
    + exists v. repeat split.
      * apply lt_false_le; auto.
      * apply lt_false_le; auto.
Qed.

(** ** What [set] stores, in general *)

Lemma clamp_type v lo hi r U :
  type_of v = U -> type_of lo = U -> type_of hi = U ->
  clamp v lo hi = Ok r -> type_of r = U.
Proof.
  intros Hv Hlo Hhi Hc.
  destruct (clamp_cases _ _ _ _ Hc) as [-> | [-> | ->]]; assumption.
Qed.

(** The steps behind a stored value: bounds and input are brought to the
    type of the clamp, clamped there, and the result is brought to the
    storage type. *)
Lemma set_value_shape T Min Max v s :
  set_value T Min Max v = Ok s ->
  exists lo hi x c,
    static_cast (clamp_domain T Min Max v) Min = Ok lo /\
    static_cast (clamp_domain T Min Max v) Max = Ok hi /\
    static_cast (clamp_domain T Min Max v) v = Ok x /\
    clamp x lo hi = Ok c /\
    static_cast T c = Ok s.
Proof.
  unfold set_value, clamp_domain.
  destruct (CanContainBounds (type_of v) Min Max).
  - destruct (static_cast (type_of v) Min) as [lo| |] eqn:Hlo; try discriminate.
    destruct (static_cast (type_of v) Max) as [hi| |] eqn:Hhi; try discriminate.
    cbn [bind].
    destruct (clamp v lo hi) as [c| |] eqn:Hc; try discriminate.
    cbn [bind]. intros Hs.
    exists lo, hi, v, c. rewrite static_cast_same. auto.
  - destruct (static_cast T v) as [x| |] eqn:Hx; try discriminate.
    destruct (static_cast T Min) as [lo| |] eqn:Hlo; try discriminate.
    destruct (static_cast T Max) as [hi| |] eqn:Hhi; try discriminate.
    cbn [bind]. intros Hc.
    exists lo, hi, x, s. repeat split; auto.
    rewrite <- (clamp_type x lo hi s T); eauto using static_cast_type.
    apply static_cast_same.
Qed.

(** An input clamped in the storage type: the bounds in order there and
    the converted input comparable with itself (not a NaN). *)
Lemma set_value_in_storage T Min Max v lo hi x :
  clamp_domain T Min Max v = T ->
  static_cast T Min = Ok lo -> static_cast T Max = Ok hi ->
  static_cast T v = Ok x ->
  le lo hi = true -> le x x = true ->
  exists s, set_value T Min Max v = Ok s /\
            in_bounds T Min Max s = true /\
            (s = x \/ s = lo \/ s = hi).
Proof.
  intros HD Hlo Hhi Hx L V.
  pose proof (static_cast_type _ _ _ Hlo) as Tlo.
  pose proof (static_cast_type _ _ _ Hhi) as Thi.
  pose proof (static_cast_type _ _ _ Hx) as Tx.
  destruct (clamp_lands_between x lo hi) as (r & Hr & L1 & L2);
    try congruence.
  pose proof (clamp_type x lo hi r T Tx Tlo Thi Hr) as Tr.
  exists r. split; [|split].
  - unfold set_value. unfold clamp_domain in HD.
    destruct (CanContainBounds (type_of v) Min Max).
    + rewrite HD in *. rewrite Hlo, Hhi. cbn [bind].
      rewrite <- HD in Hx. rewrite static_cast_same in Hx.
      injection Hx as ->. rewrite Hr. cbn [bind].
      rewrite <- Tr. apply static_cast_same.
    + now rewrite Hx, Hlo, Hhi.
  - unfold in_bounds. rewrite Hlo, Hhi. now rewrite L1, L2.
  - eapply clamp_cases, Hr.
Qed.

Section Further.

Variable T : ctype.
Variables Min Max : num.
Hypothesis HT : CanContainBounds T Min Max = true.

(** Whenever the input is clamped in the storage type (it has that type,
    or its own type cannot hold the bounds), the bounds converted to the
    storage type are in order and the converted input is not a NaN, [set]
    succeeds and the stored value lies between the bounds. *)
Theorem set_keeps_invariant_in_storage self v lo hi x :
  set_accepts T (type_of v) = true ->
  clamp_domain T Min Max v = T ->
  static_cast T Min = Ok lo -> static_cast T Max = Ok hi ->
  static_cast T v = Ok x ->
  le lo hi = true -> le x x = true ->
  exists s, set T Min Max self v = stored s /\
            in_bounds T Min Max s = true.
Proof.
  intros HA HD Hlo Hhi Hx L V.
  destruct (set_value_in_storage T Min Max v lo hi x HD Hlo Hhi Hx L V)
    as (s & Hs & Hin & _).
  exists s. split; [|exact Hin]. now apply set_stores.
Qed.

(** Under the same conditions, setting the object again to the value it
    then holds changes nothing. *)
Theorem set_then_reset self v lo hi x :
  set_accepts T (type_of v) = true ->
  clamp_domain T Min Max v = T ->
  static_cast T Min = Ok lo -> static_cast T Max = Ok hi ->
  static_cast T v = Ok x ->
  le lo hi = true -> le x x = true ->
  exists b s, set T Min Max self v = Ok b /\ value b = Some s /\
              set T Min Max b s = Ok b.
Proof.
  intros HA HD Hlo Hhi Hx L V.
  destruct (set_value_in_storage T Min Max v lo hi x HD Hlo Hhi Hx L V)
    as (s & Hs & Hin & Hc).
  assert (Ts : type_of s = T).
  { destruct Hc as [-> | [-> | ->]]; eauto using static_cast_type. }
  exists {| m_value := Some s |}, s. split; [|split].
  - now apply set_stores.
  - reflexivity.
  - apply set_stores; [exact HT | |].
    + rewrite Ts. now apply set_accepts_storage with (Min := Min) (Max := Max).
    + now apply set_value_fixed.
Qed.

Lemma set_undefined_when self v lo hi :
  set_accepts T (type_of v) = true ->
  static_cast (clamp_domain T Min Max v) Min = Ok lo ->
  static_cast (clamp_domain T Min Max v) Max = Ok hi ->
  set T Min Max self v = Undefined <-> lt hi lo = true.
Proof.
  intros HA Hlo Hhi.
  pose proof (CanContainBounds_arithmetic T Min Max HT) as AT.
  unfold set. rewrite HT, HA. cbn [negb].
  unfold set_value. unfold clamp_domain in Hlo, Hhi.
  destruct (CanContainBounds (type_of v) Min Max).
  - rewrite Hlo, Hhi. cbn [bind].
    destruct (clamp v lo hi) as [c| |] eqn:Hc.
    + cbn [bind].
      assert (Tc : type_of c = type_of v).
      { exact (clamp_type v lo hi c (type_of v) eq_refl
                 (static_cast_type _ _ _ Hlo) (static_cast_type _ _ _ Hhi) Hc). }
      destruct (accepted_cast_total T (type_of v) c AT HA Tc) as [y ->].
      cbn [bind]. split; [discriminate|].
      intros Hlt. apply (clamp_undefined v) in Hlt. rewrite Hlt in Hc.
      discriminate.
    + cbn [bind]. split; [intros _; now apply (clamp_undefined v) | reflexivity].
    + now apply clamp_compiles in Hc.
  - destruct (accepted_cast_total T (type_of v) v AT HA eq_refl) as [x ->].
    rewrite Hlo, Hhi. cbn [bind].
    destruct (clamp x lo hi) as [c| |] eqn:Hc.
    + cbn [bind]. split; [discriminate|].
      intros Hlt. apply (clamp_undefined x) in Hlt. rewrite Hlt in Hc.
      discriminate.
    + cbn [bind]. split; [intros _; now apply (clamp_undefined x) | reflexivity].
    + now apply clamp_compiles in Hc.
Qed.

(** An accepted input makes [set] undefined exactly when, in the type of
    the clamp, the conversion of a bound is undefined or the upper bound
    is below the lower one. *)
Theorem set_undefined_iff self v :
  set_accepts T (type_of v) = true ->
  set T Min Max self v = Undefined <->
  static_cast (clamp_domain T Min Max v) Min = Undefined \/
  static_cast (clamp_domain T Min Max v) Max = Undefined \/
  exists lo hi,
    static_cast (clamp_domain T Min Max v) Min = Ok lo /\
    static_cast (clamp_domain T Min Max v) Max = Ok hi /\
    lt hi lo = true.
Proof.
  intros HA.
  pose proof (CanContainBounds_arithmetic T Min Max HT) as AT.
  assert (AD : is_arithmetic (clamp_domain T Min Max v) = true).
  { unfold clamp_domain. destruct (CanContainBounds (type_of v) Min Max);
      [apply is_arithmetic_type_of | exact AT]. }
  destruct (static_cast (clamp_domain T Min Max v) Min) as [lo| |] eqn:Hlo.
  - destruct (static_cast (clamp_domain T Min Max v) Max) as [hi| |] eqn:Hhi.
    + rewrite (set_undefined_when self v lo hi HA Hlo Hhi). split.
      * intros H. right. right. exists lo, hi. auto.
      * intros [H | [H | (lo' & hi' & [= <-] & [= <-] & H)]];
          (discriminate || exact H).
    + split; [auto|]. intros _.
      unfold set. rewrite HT, HA. cbn [negb].
      unfold set_value. unfold clamp_domain in Hlo, Hhi.
      destruct (CanContainBounds (type_of v) Min Max).
      * now rewrite Hlo, Hhi.
      * destruct (accepted_cast_total T (type_of v) v AT HA eq_refl) as [x ->].
        now rewrite Hlo, Hhi.
    + now apply static_cast_compiles in Hhi.
  - split; [auto|]. intros _.
    unfold set. rewrite HT, HA. cbn [negb].
    unfold set_value. unfold clamp_domain in Hlo.
    destruct (CanContainBounds (type_of v) Min Max).
    + now rewrite Hlo.
    + destruct (accepted_cast_total T (type_of v) v AT HA eq_refl) as [x ->].
      now rewrite Hlo.
  - now apply static_cast_compiles in Hlo.
Qed.

(** A NaN of a floating-point storage type is stored as it is, whatever
    the bounds, as long as they are in order. *)
Theorem set_nan_passes f self lo hi :
  T = TFloat f ->
  static_cast T Min = Ok lo -> static_cast T Max = Ok hi ->
  le lo hi = true ->
  set T Min Max self (VFloat f S754_nan) = stored (VFloat f S754_nan).
Proof.
  intros -> Hlo Hhi L.
  pose proof (static_cast_type _ _ _ Hlo) as Tlo.
  pose proof (static_cast_type _ _ _ Hhi) as Thi.
  apply set_stores; [exact HT | reflexivity |].
  unfold set_value. cbn [type_of]. rewrite HT, Hlo, Hhi. cbn [bind].
  unfold clamp. rewrite (le_lt_false lo hi) by congruence.
  unfold lt at 1 2. rewrite compare_nan_l, compare_nan_r. cbn [bind].
  apply (static_cast_same (VFloat f S754_nan)).
Qed.

(** What [set] stores is never anything but the input, [Min] or [Max],
    converted to the type of the clamp and from there to the storage
    type. *)
Theorem set_stores_input_or_bound self v b :
  set T Min Max self v = Ok b ->
  exists s lo hi x c,
    value b = Some s /\
    static_cast (clamp_domain T Min Max v) Min = Ok lo /\
    static_cast (clamp_domain T Min Max v) Max = Ok hi /\
    static_cast (clamp_domain T Min Max v) v = Ok x /\
    (c = x \/ c = lo \/ c = hi) /\
    static_cast T c = Ok s.
Proof.
  unfold set. rewrite HT. cbn [negb].
  destruct (set_accepts T (type_of v)); [|discriminate]. cbn [negb].
  destruct (set_value T Min Max v) as [s| |] eqn:Hs; try discriminate.
  cbn [bind]. intros [= <-].
  destruct (set_value_shape T Min Max v s Hs) as (lo & hi & x & c & A & B & C & D & E).
  exists s, lo, hi, x, c. repeat split; auto.
  eapply clamp_cases, D.
Qed.

(** A constructed object always holds a value, and one of the storage
    type. *)
Theorem construct_initializes v b :
  construct T Min Max v = Ok b ->
  exists s, value b = Some s /\ type_of s = T.
Proof.
  unfold construct, set. rewrite HT. cbn [negb].
  destruct (set_accepts T (type_of v)); [|discriminate]. cbn [negb].
  destruct (set_value T Min Max v) as [s| |] eqn:Hs; try discriminate.
  cbn [bind]. intros [= <-]. exists s. split; [reflexivity|].
  destruct (set_value_shape T Min Max v s Hs) as (lo & hi & x & c & _ & _ & _ & _ & E).
  eapply static_cast_type, E.
Qed.

End Further.

(** ** What the concept never admits *)

(** No type can contain a bound that is a NaN. *)
Theorem CanContainBounds_rejects_nan T f other :
  CanContainBounds T (VFloat f S754_nan) other = false /\
  CanContainBounds T other (VFloat f S754_nan) = false.
Proof.
  unfold CanContainBounds, le.
  rewrite compare_nan_l, compare_nan_r.
  destruct T; cbn [is_arithmetic numeric_limits_max numeric_limits_lowest andb];
    rewrite ?andb_false_r; auto.
Qed.

(** No type can contain bounds of which the upper is below the lower. *)
Theorem CanContainBounds_rejects_inverted T Min Max :
  lt Max Min = true -> CanContainBounds T Min Max = false.
Proof.
  intros H. unfold CanContainBounds. rewrite (lt_le_false Max Min H).
  destruct T; cbn [is_arithmetic numeric_limits_max numeric_limits_lowest andb];
    rewrite ?andb_false_r; reflexivity.
Qed.

(** [SameNumericType] is symmetric and transitive, and a type is of its
    own kind exactly when it is arithmetic. *)
Theorem SameNumericType_equivalence :
  (forall T U, SameNumericType T U = SameNumericType U T) /\
  (forall T U V,
      SameNumericType T U = true -> SameNumericType U V = true ->
      SameNumericType T V = true) /\
  (forall T, SameNumericType T T = is_arithmetic T).
Proof.
  repeat split.
  - intros [] []; reflexivity.
  - intros [] [] []; simpl; intros; (reflexivity || discriminate).
  - intros []; reflexivity.
Qed.

(** ** Integral storage *)

(** With integral storage, input and bounds, [set] stores the input
    saturated to the bounds whenever no conversion on the way changes a
    value: the bounds fit the storage type and, where the input type can
    hold them by the concept, that type; an input whose type cannot is
    narrowed first and must fit the storage type. *)
Theorem set_integral_saturates t u ta tb a b n self :
  CanContainBounds (TInt t) (VInt ta a) (VInt tb b) = true ->
  in_range u n -> in_range t a -> in_range t b -> a <= b ->
  (if CanContainBounds (TInt u) (VInt ta a) (VInt tb b)
   then in_range u a /\ in_range u b
   else in_range t n) ->
  set (TInt t) (VInt ta a) (VInt tb b) self (VInt u n)
  = stored (VInt t (Z.max a (Z.min n b))).
Proof.
  intros HT Hn Ha Hb Hab H.
  apply set_stores; [exact HT | reflexivity |].
  now apply set_value_integral.
Qed.

(** [dBn] stores every integral input saturated to [0, 1000], and the
    stored value is inside the bounds. *)
Theorem dBn_saturates i n :
  in_range i n ->
  dBn (VInt i n) = stored (int_ (Z.max 0 (Z.min n 1000))) /\
  in_bounds (TInt Int) (int_ 0) (int_ 1000) (int_ (Z.max 0 (Z.min n 1000)))
    = true.
Proof.
  intros Hn. split; [now apply dBn_integral|].
  destruct (dBn_invariant i n Hn) as (s & Hs & Hin).
  rewrite (dBn_integral i n Hn) in Hs. unfold stored in Hs.
  now injection Hs as <-.
Qed.

(** [dBn] is monotone across the integral types: of two inputs the larger
    never gets the smaller stored value. *)
Theorem dBn_monotone i j n m :
  in_range i n -> in_range j m -> n <= m ->
  exists s t, dBn (VInt i n) = stored (int_ s) /\
              dBn (VInt j m) = stored (int_ t) /\ s <= t.
Proof.
  intros Hn Hm Hle.
  exists (Z.max 0 (Z.min n 1000)), (Z.max 0 (Z.min m 1000)).
  split; [now apply dBn_integral|]. split; [now apply dBn_integral|]. lia.
Qed.

(** ** The alias [dB] on integral inputs *)

(** From a value of a signed integral type, [dB] stores the value
    saturated to [-100, 0], as a [double]. *)
Theorem dB_signed_integral i n :
  is_signed i = true -> in_range i n ->
  dB (VInt i n)
  = stored (VFloat Double (int_to_float Double (Z.max (-100) (Z.min n 0)))).
Proof.
  intros Hs Hn. unfold dB, construct, set, set_value, int_, stored.
  cbn [type_of].
  replace (CanContainBounds (TFloat Double) (VInt Int (-100)) (VInt Int 0))
    with true by (vm_compute; reflexivity).
  replace (set_accepts (TFloat Double) (TInt i)) with true by reflexivity.
  cbn [negb].
  replace (CanContainBounds (TInt i) (VInt Int (-100)) (VInt Int 0))
    with true by (destruct i; try discriminate Hs; vm_compute; reflexivity).
  assert (H0 : in_range i (-100) /\ in_range i 0)
    by (destruct i; try discriminate Hs; split; range_solver).
  destruct H0 as [H0 H1].
  rewrite !static_cast_int_fits by assumption. cbn [bind].
  rewrite clamp_int by (assumption || lia). reflexivity.
Qed.

(** From a value of an integral type, [dB] is undefined exactly when the
    type is unsigned after promotion ([unsigned int], [unsigned long],
    [unsigned long long], [char32_t]): the lower bound -100 then turns into
    a value above the upper bound. *)
Theorem dB_undefined_iff i n :
  dB (VInt i n) = Undefined <-> is_signed (promote i) = false.
Proof.
  assert (HT : CanContainBounds (TFloat Double) (int_ (-100)) (int_ 0) = true)
    by (vm_compute; reflexivity).
  unfold dB, construct.
  destruct i;
    (etransitivity;
     [ eapply (set_undefined_when _ _ _ HT);
       [ reflexivity | reflexivity | reflexivity ]
     | vm_compute; split; congruence ]).
Qed.

(** ** Where the concept is exact *)

(** Two integers are compared as they are when the common type of the
    comparison holds both. *)
Lemma compare_int_exact i j n m :
  in_range (common_int i j) n -> in_range (common_int i j) m ->
  compare (VInt i n) (VInt j m) = Some (n ?= m).
Proof.
  intros Hn Hm. unfold compare. now rewrite !wrap_in_range.
Qed.

(** The common type of two signed types holds the values of both. *)
Lemma common_int_signed i j n :
  is_signed i = true -> is_signed j = true ->
  in_range i n \/ in_range j n -> in_range (common_int i j) n.
Proof.
  intros Hi Hj H.
  destruct i; try discriminate Hi; destruct j; try discriminate Hj;
    match goal with
    | |- in_range (common_int ?a ?b) _ =>
        let c := eval vm_compute in (common_int a b) in
        change (common_int a b) with c
    end; destruct H; range_solver.
Qed.

(** Any common type holds the values of both types that are not
    negative. *)
Lemma common_int_nonneg i j n :
  0 <= n -> in_range i n \/ in_range j n -> in_range (common_int i j) n.
Proof.
  intros H0 H.
  destruct i, j;
    match goal with
    | |- in_range (common_int ?a ?b) _ =>
        let c := eval vm_compute in (common_int a b) in
        change (common_int a b) with c
    end; destruct H; range_solver.
Qed.

Lemma CanContainBounds_int_exact t ta tb a b :
  in_range (common_int t tb) (imax t) -> in_range (common_int t tb) b ->
  in_range (common_int t ta) (imin t) -> in_range (common_int t ta) a ->
  in_range (common_int ta tb) a -> in_range (common_int ta tb) b ->
  CanContainBounds (TInt t) (VInt ta a) (VInt tb b) = true <->
  imin t <= a /\ b <= imax t /\ a <= b.
Proof.
  intros H1 H2 H3 H4 H5 H6. unfold CanContainBounds, ge, le.
  cbn [is_arithmetic numeric_limits_max numeric_limits_lowest andb].
  rewrite !compare_int_exact by assumption.
  destruct (Z.compare_spec (imax t) b) as [E1|E1|E1],
    (Z.compare_spec (imin t) a) as [E2|E2|E2],
    (Z.compare_spec a b) as [E3|E3|E3]; cbn [andb]; split; intros G;
    (reflexivity || discriminate || lia).
Qed.

(** With a signed storage type and bounds of signed types the concept
    holds exactly when the bounds are in order and within the limits of
    the storage type. *)
Theorem CanContainBounds_signed_exact t ta tb a b :
  is_signed t = true -> is_signed ta = true -> is_signed tb = true ->
  in_range ta a -> in_range tb b ->
  CanContainBounds (TInt t) (VInt ta a) (VInt tb b) = true <->
  imin t <= a /\ b <= imax t /\ a <= b.
Proof.
  intros St Sa Sb Ha Hb.
  assert (Rmax : in_range t (imax t)) by (destruct t; range_solver).
  assert (Rmin : in_range t (imin t)) by (destruct t; range_solver).
  apply CanContainBounds_int_exact; apply common_int_signed; auto.
Qed.

(** With an unsigned storage type and bounds that are not negative the
    concept holds exactly when the bounds are in order and the upper one
    is within the limit of the storage type. *)
Theorem CanContainBounds_unsigned_exact t ta tb a b :
  is_signed t = false ->
  0 <= a -> 0 <= b -> in_range ta a -> in_range tb b ->
  CanContainBounds (TInt t) (VInt ta a) (VInt tb b) = true <->
  b <= imax t /\ a <= b.
Proof.
  intros Ut A0 B0 Ha Hb.
  assert (Rmax : in_range t (imax t) /\ 0 <= imax t) by (destruct t; range_solver).
  assert (Rmin : in_range t (imin t) /\ imin t = 0)
    by (destruct t; try discriminate Ut; split; (reflexivity || range_solver)).
  destruct Rmax as [Rmax Pmax]. destruct Rmin as [Rmin Zmin].
  rewrite CanContainBounds_int_exact; try (apply common_int_nonneg; auto; lia).
  lia.
Qed.

(** An [int] storage never takes an [unsigned int] lower bound, not even
    one that [int] can hold: the lowest [int] is compared as an
    [unsigned int], where it is 2^31. *)
Theorem CanContainBounds_int_rejects_unsigned_bound a Max :
  0 <= a <= imax Int ->
  CanContainBounds (TInt Int) (VInt UInt a) Max = false.
Proof.
  intros Ha. unfold CanContainBounds.
  cbn [is_arithmetic numeric_limits_max numeric_limits_lowest andb].
  assert (L : le (VInt Int (imin Int)) (VInt UInt a) = false).
  { unfold le, compare.
    change (common_int Int UInt) with UInt.
    change (wrap UInt (imin Int)) with 2147483648.
    rewrite wrap_in_range by range_solver.
    destruct (Z.compare_spec 2147483648 a); (reflexivity || range_solver). }
  rewrite L. now rewrite andb_false_r.
Qed.

(** ** Instances of the further properties *)

Lemma set_keeps_invariant_in_storage_witness :
  exists s, dBn_set uninitialized (VInt UChar 200) = stored s /\
            in_bounds (TInt Int) (int_ 0) (int_ 1000) s = true.
Proof.
  apply (set_keeps_invariant_in_storage (TInt Int) (int_ 0) (int_ 1000)
           ltac:(vm_compute; reflexivity) uninitialized (VInt UChar 200)
           (int_ 0) (int_ 1000) (int_ 200));
    vm_compute; reflexivity.
Defined.

Lemma set_then_reset_witness :
  exists b s, dBn_set uninitialized (VInt UChar 200) = Ok b /\
              value b = Some s /\ dBn_set b s = Ok b.
Proof.
  apply (set_then_reset (TInt Int) (int_ 0) (int_ 1000)
           ltac:(vm_compute; reflexivity) uninitialized (VInt UChar 200)
           (int_ 0) (int_ 1000) (int_ 200));
    vm_compute; reflexivity.
Defined.

Lemma set_undefined_iff_witness :
  (dB_set uninitialized (VInt UInt 5) = Undefined <->
   static_cast (TInt UInt) (int_ (-100)) = Undefined \/
   static_cast (TInt UInt) (int_ 0) = Undefined \/
   exists lo hi,
     static_cast (TInt UInt) (int_ (-100)) = Ok lo /\
     static_cast (TInt UInt) (int_ 0) = Ok hi /\
     lt hi lo = true) /\
  (set (TInt Int) (VFloat Float (S754_zero false))
     (VFloat Float (S754_finite false 8388608 8)) uninitialized (int_ 5)
   = Undefined <->
   static_cast (TInt Int) (VFloat Float (S754_zero false)) = Undefined \/
   static_cast (TInt Int) (VFloat Float (S754_finite false 8388608 8))
     = Undefined \/
   exists lo hi,
     static_cast (TInt Int) (VFloat Float (S754_zero false)) = Ok lo /\
     static_cast (TInt Int) (VFloat Float (S754_finite false 8388608 8))
       = Ok hi /\
     lt hi lo = true).
Proof.
  split.
  - exact (set_undefined_iff (TFloat Double) (int_ (-100)) (int_ 0)
             ltac:(vm_compute; reflexivity) uninitialized (VInt UInt 5)
             ltac:(vm_compute; reflexivity)).
  - exact (set_undefined_iff (TInt Int) (VFloat Float (S754_zero false))
             (VFloat Float (S754_finite false 8388608 8))
             ltac:(vm_compute; reflexivity) uninitialized (int_ 5)
             ltac:(vm_compute; reflexivity)).
Defined.

Lemma set_nan_passes_witness :
  dB_set uninitialized (VFloat Double S754_nan)
  = stored (VFloat Double S754_nan).
Proof.
  apply (set_nan_passes (TFloat Double) (int_ (-100)) (int_ 0)
           ltac:(vm_compute; reflexivity) Double uninitialized
           (double_ (-100) 0) (double_ 0 0));
    vm_compute; reflexivity.
Defined.

Lemma set_stores_input_or_bound_witness :
  exists s lo hi x c,
    value {| m_value := Some (int_ 1000) |} = Some s /\
    static_cast (TInt ULLong) (int_ 0) = Ok lo /\
    static_cast (TInt ULLong) (int_ 1000) = Ok hi /\
    static_cast (TInt ULLong) (VInt ULLong 5000) = Ok x /\
    (c = x \/ c = lo \/ c = hi) /\
    static_cast (TInt Int) c = Ok s.
Proof.
  exact (set_stores_input_or_bound (TInt Int) (int_ 0) (int_ 1000)
           ltac:(vm_compute; reflexivity) uninitialized (VInt ULLong 5000)
           {| m_value := Some (int_ 1000) |} ltac:(vm_compute; reflexivity)).
Defined.

Lemma construct_initializes_witness :
  exists s, value {| m_value := Some (int_ 1000) |} = Some s /\
            type_of s = TInt Int.
Proof.
  exact (construct_initializes (TInt Int) (int_ 0) (int_ 1000)
           ltac:(vm_compute; reflexivity) (VInt ULLong 5000)
           {| m_value := Some (int_ 1000) |} ltac:(vm_compute; reflexivity)).
Defined.

Lemma CanContainBounds_rejects_inverted_witness :
  lt (int_ 0) (int_ 10) = true /\
  CanContainBounds (TInt Int) (int_ 10) (int_ 0) = false.
Proof.
  split; [vm_compute; reflexivity|].
  apply CanContainBounds_rejects_inverted. vm_compute; reflexivity.
Defined.

Lemma SameNumericType_equivalence_witness :
  SameNumericType (TInt Int) (TInt Short) = true.
Proof.
  destruct SameNumericType_equivalence as (_ & Htrans & _).
  apply (Htrans (TInt Int) (TInt ULLong) (TInt Short)); reflexivity.
Defined.

Lemma set_integral_saturates_witness :
  set (TInt SChar) (int_ (-5)) (int_ 100) uninitialized (int_ 500)
  = stored (VInt SChar 100).
Proof.
  apply (set_integral_saturates SChar Int Int Int (-5) 100 500 uninitialized);
    try (vm_compute; reflexivity); try range_solver.
  split; range_solver.
Defined.

Lemma dBn_saturates_witness :
  dBn (VInt LLong (-7)) = stored (int_ 0) /\
  in_bounds (TInt Int) (int_ 0) (int_ 1000) (int_ 0) = true.
Proof. apply (dBn_saturates LLong (-7)). range_solver. Defined.

Lemma dBn_monotone_witness :
  exists s t, dBn (VInt SChar (-7)) = stored (int_ s) /\
              dBn (VInt ULLong 5000) = stored (int_ t) /\ s <= t.
Proof. apply (dBn_monotone SChar ULLong (-7) 5000); range_solver. Defined.

Lemma dB_signed_integral_witness :
  dB (int_ (-10)) = stored (VFloat Double (int_to_float Double (-10))).
Proof. apply (dB_signed_integral Int (-10)); [reflexivity | range_solver]. Defined.

Lemma CanContainBounds_own_limits_witness :
  CanContainBounds (TInt Int) (VInt Int (imin Int)) (VInt Int (imax Int)) = true /\
  CanContainBounds (TInt Int) (VInt Int (imin Int)) (VInt Int (imin Int)) = true /\
  CanContainBounds (TInt Int) (VInt Int (imax Int)) (VInt Int (imax Int)) = true.
Proof.
  exact (CanContainBounds_own_limits (TInt Int) _ _ eq_refl eq_refl).
Defined.

Lemma CanContainBounds_signed_exact_witness :
  CanContainBounds (TInt SChar) (int_ (-5)) (VInt Long 100) = true <->
  imin SChar <= -5 /\ 100 <= imax SChar /\ -5 <= 100.
Proof.
  apply (CanContainBounds_signed_exact SChar Int Long (-5) 100);
    try reflexivity; range_solver.
Defined.

Lemma CanContainBounds_unsigned_exact_witness :
  CanContainBounds (TInt UInt) (int_ 0) (VInt ULLong 1000) = true <->
  1000 <= imax UInt /\ 0 <= 1000.
Proof.
  apply (CanContainBounds_unsigned_exact UInt Int ULLong 0 1000);
    try reflexivity; range_solver.
Defined.

Lemma CanContainBounds_int_rejects_unsigned_bound_witness :
  CanContainBounds (TInt Int) (VInt UInt 0) (VInt UInt 1000) = false.
Proof.
  apply (CanContainBounds_int_rejects_unsigned_bound 0 (VInt UInt 1000)).
  range_solver.
Defined.

(** ** The program *)

(** [main] compiles, every one of its assertions holding, and returns 0;
    with any of the three lines it keeps in comments it would not. *)
Theorem main_returns_zero :
  main = Ok 0 /\
  consteval (dBn (double_ 10 0)) = IllFormed /\
  consteval (construct (TInt UChar) (int_ (-128)) (int_ 127) (int_ 128))
    = IllFormed /\
  user_defined_literal
    (FloatingLiteral (S754_finite false 11875091497450523853 (-60)))
    = IllFormed.
Proof. repeat split; vm_compute; reflexivity. Qed.

(** * Saturation and idempotence, exactly *)

(** ** Values with one key stand for one number *)

Lemma sf_key_dyadic f g x y :
  sf_key x = sf_key y -> dyadic (VFloat f x) = dyadic (VFloat g y).
Proof.
  destruct x as [sx|sx| |sx mx ex], y as [sy|sy| |sy my ey];
    try destruct sx; try destruct sy; cbn; intros K;
    try discriminate; try reflexivity;
    injection K as K1 K2; do 2 f_equal; lia.
Qed.

Lemma vkey_dyadic a b :
  type_of a = type_of b -> wf_int a -> wf_int b ->
  vkey a = vkey b -> dyadic a = dyadic b.
Proof.
  destruct a as [i n|f x], b as [j m|g y]; cbn [type_of]; try discriminate.
  - intros [= <-] Hn Hm K.
    now injection (vkey_int_inj i n m Hn Hm K) as ->.
  - intros _ _ _. apply sf_key_dyadic.
Qed.

Lemma same_number_key a b m :
  type_of a = type_of b -> wf_int a -> wf_int b ->
  vkey a = vkey b -> same_number a m = same_number b m.
Proof.
  intros T Wa Wb K. unfold same_number.
  now rewrite (vkey_dyadic a b T Wa Wb K).
Qed.

Lemma wf_value_int v : wf_value v -> wf_int v.
Proof. destruct v; simpl; auto. Qed.

Lemma limits_wf U vmin vmax :
  numeric_limits_lowest U = Some vmin -> numeric_limits_max U = Some vmax ->
  wf_int vmin /\ wf_int vmax /\ type_of vmin = U /\ type_of vmax = U.
Proof.
  destruct U as [i|f|]; cbn [numeric_limits_lowest numeric_limits_max];
    try discriminate; intros [= <-] [= <-];
    repeat split; cbn [wf_int]; auto; destruct i; range_solver.
Qed.

Lemma static_cast_wf_int T v w :
  wf_int v -> static_cast T v = Ok w -> wf_int w.
Proof.
  intros Wv H. destruct w as [j n|g y]; [|exact I].
  pose proof (static_cast_type _ _ _ H) as Tw. simpl in Tw. subst T.
  destruct v as [i k|f x].
  - simpl in H. destruct (itype_eqb j i) eqn:E.
    + injection H as <- <-. exact Wv.
    + injection H as <-. apply wrap_range.
  - simpl in H. destruct (float_to_int j x) as [k| |] eqn:E; try discriminate.
    simpl in H. injection H as <-.
    unfold float_to_int in E.
    destruct j;
      try (destruct (truncate x) as [q|]; [|discriminate];
           destruct (in_rangeb _ q) eqn:R; [|discriminate];
           injection E as <-; unfold in_rangeb in R;
           apply andb_prop in R as [R1 R2];
           apply Z.leb_le in R1, R2; cbn [wf_int]; split; assumption).
    injection E as <-. cbn [wf_int]. destruct x; range_solver.
Qed.

(** ** The clamp at a bound, up to the key *)

Lemma clamp_reaches_upper v lo hi :
  type_of lo = type_of hi -> type_of hi = type_of v ->
  le lo hi = true -> le hi v = true ->
  exists c, clamp v lo hi = Ok c /\ type_of c = type_of hi /\
            (c = hi \/ (c = v /\ vkey hi = vkey v)).
Proof.
  intros H1 H2 L1 L2. unfold clamp.
  rewrite (le_lt_false lo hi H1 L1).
  rewrite (le_le_lt_false lo hi v H1 H2 L1 L2).
  destruct (lt hi v) eqn:E.
  - exists hi. auto.
  - exists v. repeat split; auto. right. split; [reflexivity|].
    now apply le_not_lt_key.
Qed.

Lemma clamp_reaches_lower v lo hi :
  type_of v = type_of lo -> type_of lo = type_of hi ->
  le v lo = true -> le lo hi = true ->
  exists c, clamp v lo hi = Ok c /\ type_of c = type_of lo /\
            (c = lo \/ (c = v /\ vkey v = vkey lo)).
Proof.
  intros H1 H2 L1 L2. unfold clamp.
  rewrite (le_lt_false lo hi H2 L2).
  destruct (lt v lo) eqn:E.
  - exists lo. auto.
  - assert (K : vkey v = vkey lo) by now apply le_not_lt_key.
    assert (G : lt hi v = false).
    { unfold lt. rewrite (compare_key hi v) by congruence.
      rewrite K. rewrite <- (compare_key hi lo) by congruence.
      apply (le_lt_false lo hi H2 L2). }
    rewrite G. exists v. repeat split; auto.
Qed.

(** ** Saturation at the limits of a wider input type *)

Section SaturationExact.

Variable T : ctype.
Variables Min Max : num.
Hypothesis HT : CanContainBounds T Min Max = true.

(** C3, amended.  Let [U] be an accepted input type wider than the storage
    type, and take its limits and the bounds in the type where [set]
    clamps ([U] itself when [U] satisfies the concept, the storage type
    otherwise).  If there the limits of [U] lie at or beyond the bounds,
    the bounds being in order, and if the bounds come through the
    conversion to that type and on to the storage type as the numbers
    they are, then assigning the largest value of [U] stores a value
    exactly equal to [Max], and assigning its lowest value stores a value
    exactly equal to [Min]. *)
Theorem set_saturates_exactly self U vmin vmax lo hi xmin xmax y z :
  set_accepts T U = true ->
  wider U T = true ->
  wf_value Min -> wf_value Max ->
  numeric_limits_lowest U = Some vmin ->
  numeric_limits_max U = Some vmax ->
  static_cast (clamp_domain T Min Max vmax) Min = Ok lo ->
  static_cast (clamp_domain T Min Max vmax) Max = Ok hi ->
  static_cast (clamp_domain T Min Max vmax) vmin = Ok xmin ->
  static_cast (clamp_domain T Min Max vmax) vmax = Ok xmax ->
  le xmin lo = true -> le lo hi = true -> le hi xmax = true ->
  static_cast T lo = Ok z -> same_number z Min = true ->
  static_cast T hi = Ok y -> same_number y Max = true ->
  (exists s, set T Min Max self vmax = stored s /\
             same_number s Max = true) /\
  (exists s, set T Min Max self vmin = stored s /\
             same_number s Min = true).
Proof.
  intros HA HW WMin WMax Hvmin Hvmax Hlo Hhi Hxmin Hxmax L1 L2 L3 Hz Ez Hy Ey.
  destruct (limits_wf U vmin vmax Hvmin Hvmax) as (Wmin & Wmax & Tmin & Tmax).
  unfold clamp_domain in Hlo, Hhi, Hxmin, Hxmax. rewrite Tmax in *.
  destruct (CanContainBounds U Min Max) eqn:HU.
  - (* the clamp runs in [U] *)
    rewrite <- Tmax in Hxmax at 1. rewrite static_cast_same in Hxmax.
    rewrite <- Tmin in Hxmin at 1. rewrite static_cast_same in Hxmin.
    injection Hxmax as <-. injection Hxmin as <-.
    destruct (set_saturates_at_limits T Min Max HT self U vmin vmax lo hi
                HA HU WMin WMax Hvmin Hvmax Hlo Hhi L1 L2 L3)
      as [(y' & Hy' & Smax) (z' & Hz' & Smin)].
    rewrite Hy in Hy'. injection Hy' as <-.
    rewrite Hz in Hz'. injection Hz' as <-.
    split; [exists y | exists z]; auto.
  - (* the clamp runs in the storage type *)
    pose proof (static_cast_type _ _ _ Hlo) as Tlo.
    pose proof (static_cast_type _ _ _ Hhi) as Thi.
    pose proof (static_cast_type _ _ _ Hxmax) as Txmax.
    pose proof (static_cast_type _ _ _ Hxmin) as Txmin.
    pose proof (static_cast_wf_int T Min lo (wf_value_int _ WMin) Hlo) as Wlo.
    pose proof (static_cast_wf_int T Max hi (wf_value_int _ WMax) Hhi) as Whi.
    pose proof (static_cast_wf_int T vmax xmax Wmax Hxmax) as Wxmax.
    pose proof (static_cast_wf_int T vmin xmin Wmin Hxmin) as Wxmin.
    rewrite <- Thi in Hy at 1. rewrite static_cast_same in Hy.
    injection Hy as <-.
    rewrite <- Tlo in Hz at 1. rewrite static_cast_same in Hz.
    injection Hz as <-.
    split.
    + destruct (clamp_reaches_upper xmax lo hi) as (c & Hc & Tc & Cc);
        try congruence.
      exists c. split.
      * apply set_stores; [exact HT | now rewrite Tmax |].
        unfold set_value. now rewrite Tmax, HU, Hxmax, Hlo, Hhi.
      * destruct Cc as [-> | [-> K]]; [exact Ey|].
        rewrite <- (same_number_key hi xmax Max); auto; congruence.
    + destruct (clamp_reaches_lower xmin lo hi) as (c & Hc & Tc & Cc);
        try congruence.
      exists c. split.
      * apply set_stores; [exact HT | now rewrite Tmin |].
        unfold set_value. now rewrite Tmin, HU, Hxmin, Hlo, Hhi.
      * destruct Cc as [-> | [-> K]]; [exact Ez|].
        rewrite (same_number_key xmin lo Min); auto; congruence.
Qed.

End SaturationExact.

(** A bound the storage type cannot hold exactly is stored rounded: into
    [BoundedNumber<float, 0.0, 0.1>] the largest [double] is stored as the
    [float] nearest to 0.1, which is not 0.1. *)
Lemma saturation_rounds_bound :
  let Min := double_ 0 0 in
  let Max := VFloat Double (S754_finite false 7205759403792794 (-56)) in
  CanContainBounds (TFloat Float) Min Max = true /\
  construct (TFloat Float) Min Max (VFloat Double (SFmax_float 53 1024))
    = stored (VFloat Float (S754_finite false 13421773 (-27))) /\
  same_number (VFloat Float (S754_finite false 13421773 (-27))) Max = false.
Proof. repeat split; vm_compute; reflexivity. Qed.

Lemma set_saturates_exactly_witness :
  (exists s, dBn_set uninitialized (VInt ULLong (imax ULLong)) = stored s /\
             same_number s (int_ 1000) = true) /\
  (exists s, dBn_set uninitialized (VInt LLong (imin LLong)) = stored s /\
             same_number s (int_ 0) = true) /\
  (exists s, dB_set uninitialized (VFloat LDouble (SFmax_float 64 16384))
             = stored s /\ same_number s (int_ 0) = true) /\
  (exists s, dB_set uninitialized (VFloat LDouble (SFopp (SFmax_float 64 16384)))
             = stored s /\ same_number s (int_ (-100)) = true) /\
  (exists s, set (TInt UShort) (VInt UInt 0) (VInt UInt 1000) uninitialized
               (VInt Int (imax Int)) = stored s /\
             same_number s (VInt UInt 1000) = true) /\
  (exists s, set (TInt UShort) (VInt UInt 0) (VInt UInt 1000) uninitialized
               (VInt Int (imin Int)) = stored s /\
             same_number s (VInt UInt 0) = true).
Proof.
  assert (W : forall i n, in_range i n -> wf_value (VInt i n))
    by (intros i n Hn; exact Hn).
  pose proof (set_saturates_exactly (TInt Int) (int_ 0) (int_ 1000)
    ltac:(vm_compute; reflexivity)
    uninitialized (TInt ULLong) (VInt ULLong 0) (VInt ULLong (imax ULLong))
    (VInt ULLong 0) (VInt ULLong 1000)
    (VInt ULLong 0) (VInt ULLong (imax ULLong)) (int_ 1000) (int_ 0)
    ltac:(reflexivity) ltac:(reflexivity)
    (W Int 0 ltac:(range_solver)) (W Int 1000 ltac:(range_solver))
    eq_refl eq_refl
    ltac:(vm_compute; reflexivity) ltac:(vm_compute; reflexivity)
    ltac:(vm_compute; reflexivity) ltac:(vm_compute; reflexivity)
    ltac:(vm_compute; reflexivity) ltac:(vm_compute; reflexivity)
    ltac:(vm_compute; reflexivity) ltac:(vm_compute; reflexivity)
    ltac:(vm_compute; reflexivity) ltac:(vm_compute; reflexivity)
    ltac:(vm_compute; reflexivity)) as [A1 _].
  pose proof (set_saturates_exactly (TInt Int) (int_ 0) (int_ 1000)
    ltac:(vm_compute; reflexivity)
    uninitialized (TInt LLong) (VInt LLong (imin LLong)) (VInt LLong (imax LLong))
    (VInt LLong 0) (VInt LLong 1000)
    (VInt LLong (imin LLong)) (VInt LLong (imax LLong)) (int_ 1000) (int_ 0)
    ltac:(reflexivity) ltac:(reflexivity)
    (W Int 0 ltac:(range_solver)) (W Int 1000 ltac:(range_solver))
    eq_refl eq_refl
    ltac:(vm_compute; reflexivity) ltac:(vm_compute; reflexivity)
    ltac:(vm_compute; reflexivity) ltac:(vm_compute; reflexivity)
    ltac:(vm_compute; reflexivity) ltac:(vm_compute; reflexivity)
    ltac:(vm_compute; reflexivity) ltac:(vm_compute; reflexivity)
    ltac:(vm_compute; reflexivity) ltac:(vm_compute; reflexivity)
    ltac:(vm_compute; reflexivity)) as [_ A2].
  pose proof (set_saturates_exactly (TFloat Double) (int_ (-100)) (int_ 0)
    ltac:(vm_compute; reflexivity)
    uninitialized (TFloat LDouble)
    (VFloat LDouble (SFopp (SFmax_float 64 16384)))
    (VFloat LDouble (SFmax_float 64 16384))
    (VFloat LDouble (int_to_float LDouble (-100)))
    (VFloat LDouble (S754_zero false))
    (VFloat LDouble (SFopp (SFmax_float 64 16384)))
    (VFloat LDouble (SFmax_float 64 16384))
    (double_ 0 0) (double_ (-100) 0)
    ltac:(reflexivity) ltac:(reflexivity)
    (W Int (-100) ltac:(range_solver)) (W Int 0 ltac:(range_solver))
    eq_refl eq_refl
    ltac:(vm_compute; reflexivity) ltac:(vm_compute; reflexivity)
    ltac:(vm_compute; reflexivity) ltac:(vm_compute; reflexivity)
    ltac:(vm_compute; reflexivity) ltac:(vm_compute; reflexivity)
    ltac:(vm_compute; reflexivity) ltac:(vm_compute; reflexivity)
    ltac:(vm_compute; reflexivity) ltac:(vm_compute; reflexivity)
    ltac:(vm_compute; reflexivity)) as [A3 A4].
  pose proof (set_saturates_exactly (TInt UShort) (VInt UInt 0) (VInt UInt 1000)
    ltac:(vm_compute; reflexivity)
    uninitialized (TInt Int) (VInt Int (imin Int)) (VInt Int (imax Int))
    (VInt UShort 0) (VInt UShort 1000)
    (VInt UShort 0) (VInt UShort 65535) (VInt UShort 1000) (VInt UShort 0)
    ltac:(reflexivity) ltac:(reflexivity)
    (W UInt 0 ltac:(range_solver)) (W UInt 1000 ltac:(range_solver))
    eq_refl eq_refl
    ltac:(vm_compute; reflexivity) ltac:(vm_compute; reflexivity)
    ltac:(vm_compute; reflexivity) ltac:(vm_compute; reflexivity)
    ltac:(vm_compute; reflexivity) ltac:(vm_compute; reflexivity)
    ltac:(vm_compute; reflexivity) ltac:(vm_compute; reflexivity)
    ltac:(vm_compute; reflexivity) ltac:(vm_compute; reflexivity)
    ltac:(vm_compute; reflexivity)) as [A5 A6].
  repeat split; assumption.
Defined.

(** ** Setting an object to the value it holds *)

(** C10.  [BoundedNumber<double, 0.1, 0.2>] constructed from the [float]
    1.0 holds 0.2 rounded to [float], which as a [double] is above 0.2;
    set to the value it holds, it then holds 0.2, another value.
    [BoundedNumber<unsigned int, -1, 10>] constructed from the [int] -1
    holds 4294967295, and setting it to that value is undefined. *)
Theorem idempotence_broken :
  let Min := VFloat Double (S754_finite false 7205759403792794 (-56)) in
  let Max := VFloat Double (S754_finite false 7205759403792794 (-55)) in
  let one := VFloat Float (S754_finite false 8388608 (-23)) in
  let held := VFloat Double (S754_finite false 7205759511166976 (-55)) in
  CanContainBounds (TFloat Double) Min Max = true /\
  set_accepts (TFloat Double) (type_of one) = true /\
  construct (TFloat Double) Min Max one = stored held /\
  value {| m_value := Some held |} = Some held /\
  type_of held = TFloat Double /\
  in_bounds (TFloat Double) Min Max held = false /\
  set (TFloat Double) Min Max {| m_value := Some held |} held = stored Max /\
  construct (TFloat Double) Min Max held = stored Max /\
  held <> Max /\
  construct (TInt UInt) (int_ (-1)) (int_ 10) (int_ (-1))
    = stored (VInt UInt 4294967295) /\
  set (TInt UInt) (int_ (-1)) (int_ 10)
    {| m_value := Some (VInt UInt 4294967295) |} (VInt UInt 4294967295)
    = Undefined.
Proof.
  repeat split; try (vm_compute; reflexivity). discriminate.
Qed.
